(** * DriveShare Capital: wallet ledger and distribution engine

    A shallow embedding of [src/main.py] (helpers [ensure_wallet],
    [credit_wallet], [notify] and the endpoints [create_offering],
    [create_investment], [run_distribution], [exit_investment]) over the
    models of [src/schemas.py].

    Python [float] is IEEE binary64: it is Rocq's primitive [float], with the
    kernel's [add], [mul], [div] and [eqb].  Python [int] is [Z]; converting
    an integer beyond the range of a double raises OverflowError, which no
    endpoint catches.  A MongoDB
    collection is the list of its documents in insertion (natural) order;
    [find_one] returns the first match and [update_one] rewrites the first
    match.  The [created_at]/[updated_at] stamps are read from the wall clock;
    no operation below reads them back and they are left out of the
    documents. *)

From Stdlib Require Import ZArith List String Bool Lia DecimalString.
From Stdlib Require Import PrimFloat SpecFloat FloatOps FloatAxioms.
Import ListNotations.

#[local] Set Warnings "-inexact-float".
#[local] Open Scope string_scope.
#[local] Open Scope Z_scope.

(** ** Python numerics *)

Module Py.

(** The binary64 nearest to an integer, ties to even; an infinity when the
    integer rounds beyond the largest double. *)
Definition nearest_double (z : Z) : float :=
  SF2Prim (binary_normalize prec emax z 0 false).

(** The conversion of an integer operand in [int * float] and
    [float / int]: the nearest double, or [None] where Python raises
    OverflowError ("int too large to convert to float"), that is when the
    integer rounds beyond the largest double. *)
Definition float_of_int (z : Z) : option float :=
  match binary_normalize prec emax z 0 false with
  | S754_infinity _ => None
  | _ => Some (nearest_double z)
  end.

(** Nearest integer to [num / den] for [den > 0], ties to even. *)
Definition round_half_even (num den : Z) : Z :=
  let q := num / den in
  match 2 * (num mod den) ?= den with
  | Lt => q
  | Gt => q + 1
  | Eq => if Z.even q then q else q + 1
  end.

(** Nearest integer to [m * 2^e * 10^ndigits], ties to even: the decimal
    digits CPython's [_Py_dg_dtoa] (mode 3) produces for the magnitude of
    a finite double. *)
Definition scaled_digits (m : positive) (e : Z) (ndigits : N) : Z :=
  let k := 10 ^ Z.of_N ndigits in
  if 0 <=? e then Zpos m * k * 2 ^ e
  else round_half_even (Zpos m * k) (2 ^ (- e)).

(** [round(x, ndigits)] on a float, for [ndigits >= 0]: the value is
    rounded to [ndigits] decimals (correctly, ties to even, on its exact
    binary value) and the decimal is converted back to the nearest double;
    nan and the infinities round to themselves and the sign of a zero is
    kept. *)
Definition round (x : float) (ndigits : N) : float :=
  match Prim2SF x with
  | S754_finite s m e =>
      match scaled_digits m e ndigits with
      | Zpos n =>
          SF2Prim (SFdiv prec emax (S754_finite s n 0)
                     (S754_finite false (Z.to_pos (10 ^ Z.of_N ndigits)) 0))
      | _ => SF2Prim (S754_zero s)
      end
  | _ => x
  end.

(** [str(z)] for an integer. *)
Definition str_of_int (z : Z) : string :=
  NilZero.string_of_int (Z.to_int z).

Definition str_of_nat (n : N) : string :=
  NilZero.string_of_uint (N.to_uint n).

(** The fractional digits of a fixed-point rendering, zero-padded. *)
Fixpoint pad_left (width : nat) (s : string) : string :=
  match width with
  | O => s
  | S w => if (String.length s <? S w)%nat then pad_left w ("0" ++ s) else s
  end.

(** [f"{x:.2f}"]: fixed-point with two decimals. *)
Definition format_2f (x : float) : string :=
  match Prim2SF x with
  | S754_zero s => (if s then "-" else "") ++ "0.00"
  | S754_infinity s => (if s then "-" else "") ++ "inf"
  | S754_nan => "nan"
  | S754_finite s m e =>
      let n := scaled_digits m e 2 in
      (if s then "-" else "")
        ++ str_of_nat (Z.to_N (n / 100)) ++ "."
        ++ pad_left 2 (str_of_nat (Z.to_N (n mod 100)))
  end.

End Py.

(** ** The models of [schemas.py] *)

(** Values a [meta] dictionary holds. *)
Inductive value : Type :=
| VStr (s : string)
| VInt (z : Z)
| VFloat (f : float).

Definition dict : Type := list (string * value).

Module Wallet.
Record t : Type := Build
  { user_id : string;
    balance : float;
    currency : string }.
End Wallet.

Module Transaction.
Inductive kind : Type :=
| topup
| instalment_payment
| rental_distribution
| exit_payout
| trade_settlement.

Record t : Type := Build
  { user_id : string;
    type : kind;
    amount : float;
    reference_id : option string;
    meta : option dict }.
End Transaction.

Module Notification.
Record t : Type := Build
  { user_id : string;
    title : string;
    message : string;
    read : bool }.
End Notification.

Module Offering.
Inductive state : Type := open | closed | fully_subscribed.

Record t : Type := Build
  { title : string;
    spv_id : option string;
    description : option string;
    cars_count : Z;
    shares_total : Z;
    share_price : float;
    term_months : Z;
    status : state;
    images : option (list string) }.

(** The [Field] constraints pydantic checks when the model is built. *)
Definition valid (o : t) : bool :=
  (1 <=? cars_count o) && (10 <=? shares_total o)
  && PrimFloat.leb 0%float (share_price o) && (1 <=? term_months o).
End Offering.

Module Investment.
Inductive state : Type := active | exited | defaulted.

Definition state_eqb (a b : state) : bool :=
  match a, b with
  | active, active | exited, exited | defaulted, defaulted => true
  | _, _ => false
  end.

Record t : Type := Build
  { user_id : string;
    offering_id : string;
    shares : Z;
    pledge_amount : float;
    monthly_instalment : float;
    months : Z;
    status : state }.

Definition valid (i : t) : bool :=
  (1 <=? shares i) && PrimFloat.leb 0%float (pledge_amount i)
  && PrimFloat.leb 0%float (monthly_instalment i) && (1 <=? months i).

Definition set_status (st : state) (i : t) : t :=
  Build (user_id i) (offering_id i) (shares i) (pledge_amount i)
    (monthly_instalment i) (months i) st.
End Investment.

Module Distribution.
Record t : Type := Build
  { offering_id : string;
    month : Z;
    total_amount : float;
    per_share : float }.
End Distribution.

(** ** The document store *)

(** A stored document: the dumped model under the identifier the store
    gave it. *)
Record doc (A : Type) : Type := Doc
  { _id : string;
    fields : A }.
Arguments Doc {A} _ _.
Arguments _id {A} _.
Arguments fields {A} _.

Definition collection (A : Type) : Type := list (doc A).

Record Database : Type := Build_Database
  { wallet : collection Wallet.t;
    transaction : collection Transaction.t;
    notification : collection Notification.t;
    offering : collection Offering.t;
    investment : collection Investment.t;
    distribution : collection Distribution.t;
    next_oid : N }.

Definition empty_db : Database := Build_Database [] [] [] [] [] [] 0.

(** A collection of the database, as [db["name"]] names it: how to read it
    and how to write it back. *)
Record handle (A : Type) : Type := Handle
  { get : Database -> collection A;
    set : Database -> collection A -> Database }.
Arguments get {A} _ _.
Arguments set {A} _ _ _.

Definition wallet_ : handle Wallet.t :=
  Handle _ wallet (fun db c =>
    Build_Database c (transaction db) (notification db) (offering db)
      (investment db) (distribution db) (next_oid db)).

Definition transaction_ : handle Transaction.t :=
  Handle _ transaction (fun db c =>
    Build_Database (wallet db) c (notification db) (offering db)
      (investment db) (distribution db) (next_oid db)).

Definition notification_ : handle Notification.t :=
  Handle _ notification (fun db c =>
    Build_Database (wallet db) (transaction db) c (offering db)
      (investment db) (distribution db) (next_oid db)).

Definition offering_ : handle Offering.t :=
  Handle _ offering (fun db c =>
    Build_Database (wallet db) (transaction db) (notification db) c
      (investment db) (distribution db) (next_oid db)).

Definition investment_ : handle Investment.t :=
  Handle _ investment (fun db c =>
    Build_Database (wallet db) (transaction db) (notification db)
      (offering db) c (distribution db) (next_oid db)).

Definition distribution_ : handle Distribution.t :=
  Handle _ distribution (fun db c =>
    Build_Database (wallet db) (transaction db) (notification db)
      (offering db) (investment db) c (next_oid db)).

(** Modelled from the spec: the identifiers of [database.py]'s store, which
    is not among the sources.  The spec has a "generic collection-oriented
    storage keyed by opaque string identifiers"; the n-th identifier handed
    out is the decimal numeral of n.  Nothing below depends on its shape. *)
Definition new_oid (n : N) : string := Py.str_of_nat n.

Definition take_oid (db : Database) : Database :=
  Build_Database (wallet db) (transaction db) (notification db)
    (offering db) (investment db) (distribution db) (N.succ (next_oid db)).

(** Modelled from the spec: [database.create_document], which is not among
    the sources ("insert-one"): the model is stored as a new document at the
    end of the collection and its identifier is returned. *)
Definition create_document {A : Type} (c : handle A) (db : Database) (data : A)
  : Database * string :=
  let oid := new_oid (next_oid db) in
  (take_oid (set c db (get c db ++ [Doc oid data])%list), oid).

(** What a filter compares a field with: a string, or the result of a
    lookup (a whole document, or [None]) as [ensure_wallet] passes. *)
Inductive operand (A : Type) : Type :=
| OStr (s : string)
| ODoc (d : option (doc A)).
Arguments OStr {A} _.
Arguments ODoc {A} _.

(** The filter [{"_id": v}].  Identifiers are strings: a document and the
    null value equal none of them. *)
Definition by_id {A : Type} (v : operand A) (d : doc A) : bool :=
  match v with
  | OStr s => String.eqb (_id d) s
  | ODoc _ => false
  end.

(** The filter [{"id": v}].  A stored document is the dumped model under
    [_id]; none of the models has a field [id]. *)
Definition by_field_id {A : Type} (v : string) (d : doc A) : bool := false.

(** Modelled from the spec: "find-one (by filter)". *)
Definition find_one {A : Type} (c : collection A) (filter : doc A -> bool)
  : option (doc A) :=
  List.find filter c.

(** Modelled from the spec: "find-many". *)
Definition find {A : Type} (c : collection A) (filter : doc A -> bool)
  : list (doc A) :=
  List.filter filter c.

Fixpoint update_first {A : Type} (filter : doc A -> bool) (upd : A -> A)
  (c : collection A) : collection A :=
  match c with
  | [] => []
  | d :: rest =>
      if filter d then Doc (_id d) (upd (fields d)) :: rest
      else d :: update_first filter upd rest
  end.

(** Modelled from the spec: "update-one (filter + field-set or increment)":
    the first matching document is rewritten; nothing is inserted when none
    matches. *)
Definition update_one {A : Type} (c : handle A) (db : Database)
  (filter : doc A -> bool) (upd : A -> A) : Database :=
  set c db (update_first filter upd (get c db)).

(** [a or b] on the results of two lookups. *)
Definition or_else {A : Type} (a b : option A) : option A :=
  match a with
  | Some x => Some x
  | None => b
  end.

(** [meta or {}] *)
Definition or_empty (meta : option dict) : dict :=
  match meta with
  | Some m => m
  | None => []
  end.

(** ** Responses *)

Inductive HTTPException : Type :=
| HTTPError (status_code : Z) (detail : string).

(** The exceptions of Python that escape an endpoint uncaught. *)
Inductive exception : Type :=
| OverflowError.

(** What an endpoint answers: the body of its JSON object without the
    constant ["status": "ok"], or the [HTTPException] it raised, or the
    exception that escaped it. *)
Inductive response (A : Type) : Type :=
| Ok (body : A)
| Raise (e : HTTPException)
| Uncaught (e : exception).
Arguments Ok {A} _.
Arguments Raise {A} _.
Arguments Uncaught {A} _.

(** The names the specification gives to the failures. *)
Definition NotFound (detail : string) : HTTPException := HTTPError 404 detail.
Definition InvalidState (detail : string) : HTTPException := HTTPError 400 detail.
Definition ValidationError (detail : string) : HTTPException := HTTPError 400 detail.

(** ** Helpers of [main.py] *)

Definition wallet_of (user_id : string) (d : doc Wallet.t) : bool :=
  String.eqb (Wallet.user_id (fields d)) user_id.

(** [None] is Python's [None].  After an insertion the function looks the
    new identifier up and passes what that lookup found as the [_id] of a
    second lookup, whose result it returns. *)
Definition ensure_wallet (db : Database) (user_id : string)
  : Database * option (doc Wallet.t) :=
  match find_one (wallet db) (wallet_of user_id) with
  | None =>
      let '(db1, wid) :=
        create_document wallet_ db (Wallet.Build user_id 0%float "USD") in
      (db1,
       find_one (wallet db1)
         (by_id (ODoc (find_one (wallet db1) (by_id (OStr wid))))))
  | Some w => (db, Some w)
  end.

(** [{"$inc": {"balance": amount}}] *)
Definition inc_balance (amount : float) (w : Wallet.t) : Wallet.t :=
  Wallet.Build (Wallet.user_id w) (Wallet.balance w + amount)%float
    (Wallet.currency w).

(** [tx_type] is one of the literals of [Transaction.type], as every caller
    passes. *)
Definition credit_wallet (db : Database) (user_id : string) (amount : float)
  (tx_type : Transaction.kind) (reference_id : option string)
  (meta : option dict) : Database :=
  let db1 := fst (ensure_wallet db user_id) in
  let db2 := update_one wallet_ db1 (wallet_of user_id) (inc_balance amount) in
  fst (create_document transaction_ db2
         (Transaction.Build user_id tx_type amount reference_id
            (Some (or_empty meta)))).

Definition notify (db : Database) (user_id title message : string) : Database :=
  fst (create_document notification_ db
         (Notification.Build user_id title message false)).

(** ** Endpoints *)

Definition create_offering (db : Database) (off : Offering.t)
  : Database * response string :=
  if Offering.shares_total off <? Offering.cars_count off * 10 then
    (db, Raise (ValidationError "shares_total must be at least cars_count * 10"))
  else
    let '(db1, oid) := create_document offering_ db off in
    (db1, Ok oid).

Definition create_investment (db : Database) (inv : Investment.t)
  : Database * response string :=
  let '(db1, oid) := create_document investment_ db inv in
  let db2 :=
    notify db1 (Investment.user_id inv) "Investment Created"
      ("You pledged " ++ Py.str_of_int (Investment.shares inv) ++ " shares") in
  (db2, Ok oid).

Record RunDistribution : Type := Build_RunDistribution
  { offering_id : string;
    month : Z;
    total_amount : float }.

(** The filter [{"offering_id": ..., "status": "active"}]. *)
Definition active_in (offering_id : string) (d : doc Investment.t) : bool :=
  String.eqb (Investment.offering_id (fields d)) offering_id
  && Investment.state_eqb (Investment.status (fields d)) Investment.active.

(** What one investment is entitled to at a per-share rate:
    [round(user_shares * per_share, 2)]; [None] when the conversion of the
    share count raises OverflowError. *)
Definition entitlement (per_share : float) (inv : doc Investment.t)
  : option float :=
  match Py.float_of_int (Investment.shares (fields inv)) with
  | Some user_shares => Some (Py.round (user_shares * per_share)%float 2)
  | None => None
  end.

Definition distribution_meta (req : RunDistribution) (per_share : float) : dict :=
  [("offering_id", VStr (offering_id req)); ("month", VInt (month req));
   ("per_share", VFloat per_share)].

(** The body of the loop once the amount is computed. *)
Definition distribute_amount (req : RunDistribution) (per_share : float)
  (db : Database) (inv : doc Investment.t) (amount : float) : Database :=
  let uid := Investment.user_id (fields inv) in
  if (amount =? 0)%float then db
  else
    let db1 :=
      credit_wallet db uid amount Transaction.rental_distribution
        (Some (_id inv)) (Some (distribution_meta req per_share)) in
    notify db1 uid "Monthly Distribution"
      ("$" ++ Py.format_2f amount ++ " credited for month "
         ++ Py.str_of_int (month req)).

(** The body of the loop over the active investments; [None] when it
    raises, before it has written anything for this investment. *)
Definition distribute (req : RunDistribution) (per_share : float)
  (db : Database) (inv : doc Investment.t) : option Database :=
  match entitlement per_share inv with
  | Some amount => Some (distribute_amount req per_share db inv amount)
  | None => None
  end.

(** The loop: the store it leaves, and the exception that stopped it if
    one did. *)
Fixpoint distribute_all (req : RunDistribution) (per_share : float)
  (invs : list (doc Investment.t)) (db : Database)
  : Database * option exception :=
  match invs with
  | [] => (db, None)
  | inv :: rest =>
      match distribute req per_share db inv with
      | Some db1 => distribute_all req per_share rest db1
      | None => (db, Some OverflowError)
      end
  end.

Definition run_distribution (db : Database) (req : RunDistribution)
  : Database * response float :=
  match or_else (find_one (offering db) (by_id (OStr (offering_id req))))
          (find_one (offering db) (by_field_id (offering_id req))) with
  | None => (db, Raise (NotFound "Offering not found"))
  | Some off =>
      let shares_total := Offering.shares_total (fields off) in
      if shares_total <=? 0 then
        (db, Raise (InvalidState "Offering has no shares_total"))
      else
        match Py.float_of_int shares_total with
        | None => (db, Uncaught OverflowError)
        | Some divisor =>
            let per_share := (total_amount req / divisor)%float in
            let invs := find (investment db) (active_in (offering_id req)) in
            match distribute_all req per_share invs db with
            | (db1, Some e) => (db1, Uncaught e)
            | (db1, None) =>
                let db2 :=
                  fst (create_document distribution_ db1
                         (Distribution.Build (offering_id req) (month req)
                            (total_amount req) per_share)) in
                (db2, Ok per_share)
            end
        end
  end.

Record ExitRequest : Type := Build_ExitRequest
  { investment_id : string }.

(** The mock payout of an exit: [round(shares * 0.9 * 100, 2)]; [None]
    when the conversion of the share count raises OverflowError. *)
Definition exit_payout_of (shares : Z) : option float :=
  match Py.float_of_int shares with
  | Some s => Some (Py.round (s * 0.9 * 100)%float 2)
  | None => None
  end.

Definition exit_investment (db : Database) (body : ExitRequest)
  : Database * response float :=
  match or_else (find_one (investment db) (by_id (OStr (investment_id body))))
          (find_one (investment db) (by_field_id (investment_id body))) with
  | None => (db, Raise (NotFound "Investment not found"))
  | Some inv =>
      let db1 :=
        update_one investment_ db (by_id (OStr (_id inv)))
          (Investment.set_status Investment.exited) in
      match exit_payout_of (Investment.shares (fields inv)) with
      | None => (db1, Uncaught OverflowError)
      | Some payout =>
          let db2 :=
            credit_wallet db1 (Investment.user_id (fields inv)) payout
              Transaction.exit_payout (Some (_id inv)) None in
          let db3 :=
            notify db2 (Investment.user_id (fields inv)) "Exit Processed"
              ("Exit payout $" ++ Py.format_2f payout ++ " credited") in
          (db3, Ok payout)
      end
  end.

(** ** Reading the ledger *)

Record WalletView : Type := Build_WalletView
  { view_id : option string;
    view_user_id : string;
    view_balance : float;
    view_currency : option string }.

(** [GET /wallet/{user_id}]: the stored wallet, or a zero balance that is
    not persisted. *)
Definition get_wallet (db : Database) (user_id : string) : WalletView :=
  match find_one (wallet db) (wallet_of user_id) with
  | Some w =>
      Build_WalletView (Some (_id w)) (Wallet.user_id (fields w))
        (Wallet.balance (fields w)) (Some (Wallet.currency (fields w)))
  | None => Build_WalletView None user_id 0%float None
  end.

Definition wallet_balance (db : Database) (user_id : string) : float :=
  view_balance (get_wallet db user_id).

(** The wallets and the log entries of one user. *)
Definition wallets_of (db : Database) (user_id : string) : list (doc Wallet.t) :=
  find (wallet db) (wallet_of user_id).

Definition transaction_of (user_id : string) (t : Transaction.t) : bool :=
  String.eqb (Transaction.user_id t) user_id.

Definition log_of (db : Database) (user_id : string) : list Transaction.t :=
  List.filter (transaction_of user_id) (map fields (transaction db)).

(** The entries of the log and of the notification sink, without the
    identifiers the store gave them. *)
Definition ledger (db : Database) : list Transaction.t :=
  map fields (transaction db).

Definition notices (db : Database) : list Notification.t :=
  map fields (notification db).

(** ** Sequences of credits *)

(** The arguments of one call of [credit_wallet]. *)
Record credit : Type := Build_credit
  { to_user : string;
    credited : float;
    tx_type : Transaction.kind;
    reference : option string;
    with_meta : option dict }.

Definition apply_credit (db : Database) (c : credit) : Database :=
  credit_wallet db (to_user c) (credited c) (tx_type c) (reference c)
    (with_meta c).

(** The [Transaction] a call records. *)
Definition logged (c : credit) : Transaction.t :=
  Transaction.Build (to_user c) (tx_type c) (credited c) (reference c)
    (Some (or_empty (with_meta c))).

Definition credit_to (user_id : string) (c : credit) : bool :=
  String.eqb (to_user c) user_id.

(** The float sum of amounts added one after the other to [start], as
    [$inc] accumulates them. *)
Definition sum_from (start : float) (amounts : list float) : float :=
  fold_left PrimFloat.add amounts start.

(** ** What a distribution run credits *)

(** A share count that [float(...)] converts. *)
Definition converts (z : Z) : Prop :=
  Py.float_of_int z = Some (Py.nearest_double z).

(** The entitlement of an investment when its share count converts. *)
Definition share_amount (per_share : float) (inv : doc Investment.t) : float :=
  Py.round (Py.nearest_double (Investment.shares (fields inv)) * per_share)%float 2.

(** The loop body when the share count converts. *)
Definition distribute_converted (req : RunDistribution) (per_share : float)
  (db : Database) (inv : doc Investment.t) : Database :=
  distribute_amount req per_share db inv (share_amount per_share inv).

(** The payout of an exit when the share count converts. *)
Definition payout_of (shares : Z) : float :=
  Py.round (Py.nearest_double shares * 0.9 * 100)%float 2.

Definition entitled (per_share : float) (inv : doc Investment.t) : bool :=
  negb (share_amount per_share inv =? 0)%float.

(** The investments a run credits: the active ones of the offering whose
    entitlement is not zero, in the order of the collection. *)
Definition credited_investments (db : Database) (req : RunDistribution)
  (per_share : float) : list (doc Investment.t) :=
  List.filter (entitled per_share)
    (find (investment db) (active_in (offering_id req))).

(** The call of [credit_wallet] the loop makes for an investment. *)
Definition distribution_credit (req : RunDistribution) (per_share : float)
  (inv : doc Investment.t) : credit :=
  Build_credit (Investment.user_id (fields inv)) (share_amount per_share inv)
    Transaction.rental_distribution (Some (_id inv))
    (Some (distribution_meta req per_share)).

(** The calls of [credit_wallet] the loop makes over a batch. *)
Definition credits_for (req : RunDistribution) (per_share : float)
  (invs : list (doc Investment.t)) : list credit :=
  map (distribution_credit req per_share)
    (List.filter (entitled per_share) invs).

Definition distribution_notice (req : RunDistribution) (per_share : float)
  (inv : doc Investment.t) : Notification.t :=
  Notification.Build (Investment.user_id (fields inv)) "Monthly Distribution"
    ("$" ++ Py.format_2f (share_amount per_share inv) ++ " credited for month "
       ++ Py.str_of_int (month req)) false.

(** ** Stores used as examples below *)

Definition offering_100 : Offering.t :=
  Offering.Build "Pool" None None 10 100 100%float 12 Offering.open None.

Definition investment_a : Investment.t :=
  Investment.Build "alice" "0" 30 3000%float 100%float 30 Investment.active.

Definition investment_b : Investment.t :=
  Investment.Build "bob" "0" 70 7000%float 100%float 70 Investment.active.

(** One offering of 100 shares and two active investments of 30 and 70
    shares, created through the endpoints. *)
Definition db_pool : Database :=
  let db1 := fst (create_offering empty_db offering_100) in
  let db2 := fst (create_investment db1 investment_a) in
  fst (create_investment db2 investment_b).

(** A run of month 3 paying 1000.55 into that offering, and a run paying
    nothing. *)
Definition run_1000 : RunDistribution := Build_RunDistribution "0" 3 1000.55%float.

Definition run_nothing : RunDistribution := Build_RunDistribution "0" 3 0%float.

(** A run paying one cent: every entitlement is below half a cent. *)
Definition run_one_cent : RunDistribution := Build_RunDistribution "0" 3 0.01%float.

(** A store holding only the offering, and one whose offering has no
    shares (as no validated request can create it). *)
Definition db_offering_only : Database :=
  fst (create_offering empty_db offering_100).

Definition db_no_shares : Database :=
  Build_Database [] [] [] [Doc "0" (Offering.Build "Void" None None 1 0 0%float 1 Offering.open None)]
    [] [] 1.

(** The first investment of [db_pool], as stored. *)
Definition stored_a : doc Investment.t := Doc "1" investment_a.

(** The credits of one user among the calls of a batch. *)
Definition amounts_to (user_id : string) (calls : list credit) : list float :=
  map credited (List.filter (credit_to user_id) calls).

(** The record a run persists. *)
Definition distribution_record (req : RunDistribution) (per_share : float)
  : Distribution.t :=
  Distribution.Build (offering_id req) (month req) (total_amount req) per_share.

(** An offering of one car with eleven shares. *)
Definition offering_11 : Offering.t :=
  Offering.Build "Odd" None None 1 11 100%float 12 Offering.open None.

(** An offering of two cars with eleven shares. *)
Definition offering_short : Offering.t :=
  Offering.Build "Short" None None 2 11 100%float 12 Offering.open None.







(** The [Transaction] an exit records. *)
Definition exit_transaction (inv : doc Investment.t) : Transaction.t :=
  Transaction.Build (Investment.user_id (fields inv)) Transaction.exit_payout
    (payout_of (Investment.shares (fields inv))) (Some (_id inv))
    (Some []).

(** The store once the exit has written the status. *)
Definition exit_marked (db : Database) (inv : doc Investment.t) : Database :=
  update_one investment_ db (by_id (OStr (_id inv)))
    (Investment.set_status Investment.exited).

(** The store an exit leaves when the share count converts. *)
Definition exited_store (db : Database) (inv : doc Investment.t) : Database :=
  notify
    (credit_wallet
       (update_one investment_ db (by_id (OStr (_id inv)))
          (Investment.set_status Investment.exited))
       (Investment.user_id (fields inv))
       (payout_of (Investment.shares (fields inv)))
       Transaction.exit_payout (Some (_id inv)) None)
    (Investment.user_id (fields inv)) "Exit Processed"
    ("Exit payout $"
       ++ Py.format_2f (payout_of (Investment.shares (fields inv)))
       ++ " credited")%string.

(** ** The other ledger endpoints *)

Module TopUp.
Record t : Type := Build
  { user_id : string;
    amount : float }.
End TopUp.

(** [POST /wallet/topup] *)
Definition wallet_topup (db : Database) (t : TopUp.t) : Database * response unit :=
  let db1 :=
    credit_wallet db (TopUp.user_id t) (abs (TopUp.amount t))
      Transaction.topup None None in
  let db2 :=
    notify db1 (TopUp.user_id t) "Wallet Top-up"
      ("+$" ++ Py.format_2f (TopUp.amount t) ++ " added to your wallet") in
  (db2, Ok tt).

(** ** The collections around the ledger *)

(** A point in time carried by a model. *)
Definition datetime : Type := Z.

Module User.
Inductive role_t : Type := investor | admin.

Record t : Type := Build
  { name : string;
    email : string;
    role : role_t;
    is_active : bool }.
End User.

Module KYC.
Inductive state : Type := pending | approved | rejected.

Inductive document_kind : Type := passport | driver_license | id_card.

Record t : Type := Build
  { user_id : string;
    status : state;
    document_type : document_kind;
    document_number : string;
    country : string;
    submitted_at : option datetime }.

Definition set_status (st : state) (k : t) : t :=
  Build (user_id k) st (document_type k) (document_number k) (country k)
    (submitted_at k).
End KYC.

Module Instalment.
Record t : Type := Build
  { user_id : string;
    investment_id : string;
    amount : float;
    due_month : Z;
    paid : bool }.
End Instalment.

(** The whole database: the collections of the ledger and of the
    distribution engine ([core], which also counts the identifiers handed
    out) and the collections of users, KYC records and instalments. *)
Record Backend : Type := Build_Backend
  { core : Database;
    user : collection User.t;
    kyc : collection KYC.t;
    instalment : collection Instalment.t }.

Definition empty_backend : Backend := Build_Backend empty_db [] [] [].

(** An operation of the ledger, run on the whole database. *)
Definition on_core (f : Database -> Database) (b : Backend) : Backend :=
  Build_Backend (f (core b)) (user b) (kyc b) (instalment b).

Record outer (A : Type) : Type := Outer
  { outer_get : Backend -> collection A;
    outer_set : Backend -> collection A -> Backend }.
Arguments outer_get {A} _ _.
Arguments outer_set {A} _ _ _.

Definition user_ : outer User.t :=
  Outer _ user (fun b c => Build_Backend (core b) c (kyc b) (instalment b)).

Definition kyc_ : outer KYC.t :=
  Outer _ kyc (fun b c => Build_Backend (core b) (user b) c (instalment b)).

Definition instalment_ : outer Instalment.t :=
  Outer _ instalment (fun b c => Build_Backend (core b) (user b) (kyc b) c).

(** Modelled from the spec: [database.create_document] on one of these
    collections: as [create_document], with the next identifier of the
    store. *)
Definition create_document_in {A : Type} (c : outer A) (b : Backend) (data : A)
  : Backend * string :=
  let oid := new_oid (next_oid (core b)) in
  (on_core take_oid (outer_set c b (outer_get c b ++ [Doc oid data])%list), oid).

(** ** Users and KYC *)

(** The answer of [POST /users]: the id, and ["message": "exists"] when the
    user was there. *)
Record UserCreated : Type := Build_UserCreated
  { created_id : string;
    created_message : option string }.

Definition with_email (email : string) (d : doc User.t) : bool :=
  String.eqb (User.email (fields d)) email.

Definition create_user (b : Backend) (u : User.t) : Backend * response UserCreated :=
  match find_one (user b) (with_email (User.email u)) with
  | Some existing => (b, Ok (Build_UserCreated (_id existing) (Some "exists")))
  | None =>
      let '(b1, oid) := create_document_in user_ b u in
      let b2 := on_core (fun db => fst (ensure_wallet db oid)) b1 in
      (b2, Ok (Build_UserCreated oid None))
  end.

Definition submit_kyc (b : Backend) (k : KYC.t) : Backend * response string :=
  let '(b1, oid) := create_document_in kyc_ b k in
  let b2 :=
    on_core (fun db => notify db (KYC.user_id k) "KYC Submitted"
                         "Your KYC is under review") b1 in
  (b2, Ok oid).

(** The decisions [POST /kyc/{kyc_id}/set] accepts. *)
Inductive verdict : Type := Approved | Rejected.

Definition state_of_verdict (v : verdict) : KYC.state :=
  match v with
  | Approved => KYC.approved
  | Rejected => KYC.rejected
  end.

(** [db["kyc"].find_one({"_id": kyc_id}) or kyc_id]: the document found,
    or else the string. *)
Definition found_or_id {A : Type} (found : option (doc A)) (kyc_id : string)
  : operand A :=
  match found with
  | Some d => ODoc (Some d)
  | None => OStr kyc_id
  end.

(** The answer is [modified_count]: 1 when a document matched the filter
    (its [updated_at] is then stamped anew), 0 when none did. *)
Definition set_kyc_status (b : Backend) (kyc_id : string) (status : verdict)
  : Backend * response Z :=
  let filter := by_id (found_or_id (find_one (kyc b) (by_id (OStr kyc_id))) kyc_id) in
  (outer_set kyc_ b
     (update_first filter (KYC.set_status (state_of_verdict status)) (kyc b)),
   Ok (match find_one (kyc b) filter with Some _ => 1 | None => 0 end)).

Module InstalmentPayment.
Record t : Type := Build
  { user_id : string;
    investment_id : string;
    amount : float }.
End InstalmentPayment.

(** [POST /instalments/pay].  [utcnow_month] is the month the wall clock
    shows when the request is served. *)
Definition pay_instalment (utcnow_month : Z) (b : Backend)
  (payload : InstalmentPayment.t) : Backend * response unit :=
  let b1 :=
    fst (create_document_in instalment_ b
           (Instalment.Build (InstalmentPayment.user_id payload)
              (InstalmentPayment.investment_id payload)
              (InstalmentPayment.amount payload) utcnow_month true)) in
  let b2 :=
    on_core (fun db =>
               credit_wallet db (InstalmentPayment.user_id payload)
                 (- abs (InstalmentPayment.amount payload))%float
                 Transaction.instalment_payment
                 (Some (InstalmentPayment.investment_id payload)) None) b1 in
  let b3 :=
    on_core (fun db =>
               notify db (InstalmentPayment.user_id payload) "Instalment Paid"
                 ("Payment of $" ++ Py.format_2f (InstalmentPayment.amount payload)
                    ++ " recorded")) b2 in
  (b3, Ok tt).

(** ** Invariants of the store *)

(** Every balance is the float sum, from 0, of the amounts the user's log
    holds, in the order of the log. *)
Definition ledger_consistent (db : Database) : Prop :=
  forall u,
    wallet_balance db u = sum_from 0%float (map Transaction.amount (log_of db u)).

(** No user has two wallets. *)
Definition one_wallet_each (db : Database) : Prop :=
  forall u, (List.length (wallets_of db u) <= 1)%nat.

(** The log of [db'] is the log of [db] with entries added at its end. *)
Definition log_extends (db db' : Database) : Prop :=
  exists added, transaction db' = (transaction db ++ added)%list.

(** The identifier the store hands out next is not in use in a
    collection. *)
Definition next_unused {A : Type} (db : Database) (c : collection A) : Prop :=
  ~ In (new_oid (next_oid db)) (map _id c).

(** ** Requests used as examples below *)

Definition topup_minus_5 : TopUp.t := TopUp.Build "dave" (-5)%float.

Definition user_erin : User.t :=
  User.Build "Erin" "erin@example.org" User.investor true.

Definition kyc_erin : KYC.t :=
  KYC.Build "0" KYC.pending KYC.passport "P123" "NL" None.

Definition payment_12 : InstalmentPayment.t :=
  InstalmentPayment.Build "frank" "1" 12.5%float.

(** * Properties *)

#[local] Open Scope list_scope.

(** ** Lookups and updates in a collection *)

Section Collections.

Context {A : Type}.
Implicit Types (c : collection A) (f g : doc A -> bool) (upd : A -> A).

Lemma find_one_app_found c c' f w :
  find_one c f = Some w -> find_one (c ++ c') f = Some w.
Proof.
  unfold find_one. induction c as [|d c IH]; simpl; [discriminate|].
  destruct (f d); auto.
Qed.

Lemma find_one_app_missing c c' f :
  find_one c f = None -> find_one (c ++ c') f = find_one c' f.
Proof.
  unfold find_one. induction c as [|d c IH]; simpl; [reflexivity|].
  destruct (f d); [discriminate | auto].
Qed.

Lemma find_one_never c f : (forall d, f d = false) -> find_one c f = None.
Proof.
  intros H. unfold find_one. induction c as [|d c IH]; simpl; [reflexivity|].
  now rewrite H.
Qed.

Lemma find_one_holds c f w : find_one c f = Some w -> f w = true /\ In w c.
Proof.
  unfold find_one. intros H. apply find_some in H. tauto.
Qed.

(** The first match is the document [update_one] rewrites, when the update
    keeps it a match. *)
Lemma find_one_update_first c f upd :
  (forall d, f (Doc (_id d) (upd (fields d))) = f d) ->
  find_one (update_first f upd c) f =
  option_map (fun d => Doc (_id d) (upd (fields d))) (find_one c f).
Proof.
  intros Hkeep. unfold find_one.
  induction c as [|d c IH]; simpl; [reflexivity|].
  destruct (f d) eqn:Hd; simpl.
  - now rewrite Hkeep, Hd.
  - now rewrite Hd.
Qed.

(** A lookup that the update cannot tell apart and that shares no match
    with the updated filter sees nothing of the update. *)
Lemma find_one_update_first_other c f g upd :
  (forall d, g (Doc (_id d) (upd (fields d))) = g d) ->
  (forall d, f d = true -> g d = false) ->
  find_one (update_first f upd c) g = find_one c g.
Proof.
  intros Hkeep Hdisj. unfold find_one.
  induction c as [|d c IH]; simpl; [reflexivity|].
  destruct (f d) eqn:Hd; simpl.
  - now rewrite Hkeep, (Hdisj d Hd).
  - now rewrite IH.
Qed.

End Collections.

(** ** [ensure_wallet] *)

Lemma wallet_of_inc_balance u amount (d : doc Wallet.t) :
  wallet_of u (Doc (_id d) (inc_balance amount (fields d))) = wallet_of u d.
Proof. reflexivity. Qed.

Lemma wallet_of_other u u' (d : doc Wallet.t) :
  u' <> u -> wallet_of u d = true -> wallet_of u' d = false.
Proof.
  unfold wallet_of. intros Hne H. apply String.eqb_eq in H.
  apply String.eqb_neq. congruence.
Qed.

(** When the user has a wallet, [ensure_wallet] returns it and writes
    nothing. *)
Lemma ensure_wallet_present db u w :
  find_one (wallet db) (wallet_of u) = Some w ->
  ensure_wallet db u = (db, Some w).
Proof. intros H. unfold ensure_wallet. now rewrite H. Qed.

(** When the user has none, one wallet with a zero balance is stored, and
    the lookup by the document that follows answers [None]. *)
Lemma ensure_wallet_absent db u :
  find_one (wallet db) (wallet_of u) = None ->
  ensure_wallet db u =
  (take_oid (set wallet_ db
     (wallet db ++ [Doc (new_oid (next_oid db)) (Wallet.Build u 0%float "USD")])),
   None).
Proof.
  intros H. unfold ensure_wallet. rewrite H. cbn -[new_oid].
  f_equal. now apply find_one_never.
Qed.

(** After [ensure_wallet] the user has a first wallet, whose balance is
    the one [get_wallet] reported before. *)
Lemma ensure_wallet_found db u :
  exists w,
    find_one (wallet (fst (ensure_wallet db u))) (wallet_of u) = Some w
    /\ Wallet.balance (fields w) = wallet_balance db u.
Proof.
  unfold wallet_balance, get_wallet.
  destruct (find_one (wallet db) (wallet_of u)) as [w|] eqn:H.
  - rewrite (ensure_wallet_present _ _ _ H). exists w. auto.
  - rewrite (ensure_wallet_absent _ _ H). cbn [fst take_oid set wallet_ wallet].
    rewrite (find_one_app_missing _ _ _ H). cbn -[new_oid].
    rewrite String.eqb_refl.
    eexists; split; reflexivity.
Qed.

Lemma ensure_wallet_other db u u' :
  u' <> u ->
  find_one (wallet (fst (ensure_wallet db u))) (wallet_of u') =
  find_one (wallet db) (wallet_of u').
Proof.
  intros Hne.
  destruct (find_one (wallet db) (wallet_of u)) as [w|] eqn:H.
  - now rewrite (ensure_wallet_present _ _ _ H).
  - rewrite (ensure_wallet_absent _ _ H). cbn [fst take_oid set wallet_ wallet].
    destruct (find_one (wallet db) (wallet_of u')) as [w'|] eqn:H'.
    + now apply find_one_app_found.
    + rewrite (find_one_app_missing _ _ _ H'). cbn -[new_oid].
      apply String.eqb_neq in Hne. rewrite String.eqb_sym in Hne.
      now rewrite Hne.
Qed.

(** [ensure_wallet] touches the wallets and the identifier counter only. *)
Lemma ensure_wallet_frame db u :
  let db' := fst (ensure_wallet db u) in
  transaction db' = transaction db /\ notification db' = notification db
  /\ offering db' = offering db /\ investment db' = investment db
  /\ distribution db' = distribution db.
Proof.
  destruct (find_one (wallet db) (wallet_of u)) as [w|] eqn:H.
  - rewrite (ensure_wallet_present _ _ _ H). cbn. tauto.
  - rewrite (ensure_wallet_absent _ _ H). cbn. tauto.
Qed.

(** ** [credit_wallet] *)

Lemma credit_wallet_wallet db u amount k r m :
  wallet (credit_wallet db u amount k r m) =
  update_first (wallet_of u) (inc_balance amount)
    (wallet (fst (ensure_wallet db u))).
Proof. reflexivity. Qed.

(** One [Transaction] is appended, carrying the arguments of the call. *)
Lemma credit_wallet_transaction db u amount k r m :
  transaction (credit_wallet db u amount k r m) =
  transaction db ++
  [Doc (new_oid (next_oid (fst (ensure_wallet db u))))
     (Transaction.Build u k amount r (Some (or_empty m)))].
Proof.
  unfold credit_wallet, create_document, update_one.
  cbn [fst transaction take_oid set get transaction_ wallet_ next_oid].
  now destruct (ensure_wallet_frame db u) as [-> _].
Qed.

Lemma credit_wallet_frame db u amount k r m :
  let db' := credit_wallet db u amount k r m in
  notification db' = notification db /\ offering db' = offering db
  /\ investment db' = investment db /\ distribution db' = distribution db.
Proof.
  unfold credit_wallet, create_document, update_one.
  cbn [fst notification offering investment distribution take_oid set get
       transaction_ wallet_].
  destruct (ensure_wallet_frame db u) as (_ & -> & -> & -> & ->). tauto.
Qed.

(** The balance [get_wallet] reports moves by exactly the amount, in
    binary64 addition. *)
Lemma credit_wallet_balance db u amount k r m :
  wallet_balance (credit_wallet db u amount k r m) u =
  (wallet_balance db u + amount)%float.
Proof.
  unfold wallet_balance at 1. unfold get_wallet.
  rewrite credit_wallet_wallet.
  rewrite find_one_update_first by apply wallet_of_inc_balance.
  destruct (ensure_wallet_found db u) as (w & -> & <-). reflexivity.
Qed.

Lemma credit_wallet_balance_other db u u' amount k r m :
  u' <> u ->
  wallet_balance (credit_wallet db u amount k r m) u' = wallet_balance db u'.
Proof.
  intros Hne. unfold wallet_balance, get_wallet.
  rewrite credit_wallet_wallet.
  rewrite find_one_update_first_other.
  - now rewrite ensure_wallet_other.
  - intros d. apply wallet_of_inc_balance.
  - intros d. now apply wallet_of_other.
Qed.

(** [notify] appends one notification and nothing else. *)
Lemma notify_notification db u title msg :
  notification (notify db u title msg) =
  notification db ++
  [Doc (new_oid (next_oid db)) (Notification.Build u title msg false)].
Proof. reflexivity. Qed.

Lemma notify_frame db u title msg :
  let db' := notify db u title msg in
  wallet db' = wallet db /\ transaction db' = transaction db
  /\ offering db' = offering db /\ investment db' = investment db
  /\ distribution db' = distribution db.
Proof. cbn. tauto. Qed.

Lemma notify_balance db u title msg u' :
  wallet_balance (notify db u title msg) u' = wallet_balance db u'.
Proof. reflexivity. Qed.

(** ** Sequences of credits *)

Lemma log_of_app_one db db' u t i :
  transaction db' = transaction db ++ [Doc i t] ->
  log_of db' u =
  log_of db u ++ (if transaction_of u t then [t] else []).
Proof.
  intros H. unfold log_of. rewrite H, map_app, filter_app. reflexivity.
Qed.

Lemma apply_credit_log db c u :
  log_of (apply_credit db c) u =
  log_of db u ++ (if credit_to u c then [logged c] else []).
Proof.
  unfold apply_credit.
  erewrite log_of_app_one by apply credit_wallet_transaction.
  reflexivity.
Qed.

Lemma apply_credit_balance db c u :
  wallet_balance (apply_credit db c) u =
  if credit_to u c then (wallet_balance db u + credited c)%float
  else wallet_balance db u.
Proof.
  unfold apply_credit, credit_to.
  destruct (String.eqb (to_user c) u) eqn:E.
  - apply String.eqb_eq in E. subst u. apply credit_wallet_balance.
  - apply String.eqb_neq in E. apply credit_wallet_balance_other. congruence.
Qed.

Lemma credits_log calls : forall db u,
  log_of (fold_left apply_credit calls db) u =
  log_of db u ++ map logged (List.filter (credit_to u) calls).
Proof.
  induction calls as [|c calls IH]; intros db u; simpl.
  - now rewrite app_nil_r.
  - rewrite IH, apply_credit_log.
    destruct (credit_to u c); simpl.
    + now rewrite <- app_assoc.
    + now rewrite app_nil_r.
Qed.

Lemma credits_balance calls : forall db u,
  wallet_balance (fold_left apply_credit calls db) u =
  sum_from (wallet_balance db u)
    (map credited (List.filter (credit_to u) calls)).
Proof.
  induction calls as [|c calls IH]; intros db u; simpl; [reflexivity|].
  rewrite IH, apply_credit_balance.
  destruct (credit_to u c); reflexivity.
Qed.

Lemma filter_all {A : Type} (f : A -> bool) (l : list A) :
  (forall x, In x l -> f x = true) -> List.filter f l = l.
Proof.
  induction l as [|x l IH]; simpl; intros H; [reflexivity|].
  rewrite (H x) by auto. f_equal. apply IH. auto.
Qed.

Lemma wallet_balance_absent db u :
  find_one (wallet db) (wallet_of u) = None -> wallet_balance db u = 0%float.
Proof. intros H. unfold wallet_balance, get_wallet. now rewrite H. Qed.

(** C1.  Ledger invariant of [credit_wallet].  For every user and every
    finite sequence of calls for that user (amounts of either sign), from
    any store: the balance afterwards is the balance before plus the
    credited amounts added in call order, so for a user who had no wallet
    it is their sum from 0; the user's log has grown by one entry per call,
    so by as many entries as there were calls; and each single call appends
    exactly one [Transaction], whose recorded amount is the amount by which
    that call moved the balance. *)
Theorem credit_wallet_ledger (db : Database) (calls : list credit) (u : string) :
  (forall c, In c calls -> to_user c = u) ->
  let db' := fold_left apply_credit calls db in
  wallet_balance db' u = sum_from (wallet_balance db u) (map credited calls)
  /\ (find_one (wallet db) (wallet_of u) = None ->
      wallet_balance db' u = sum_from 0%float (map credited calls))
  /\ log_of db' u = log_of db u ++ map logged calls
  /\ List.length (log_of db' u) =
     (List.length (log_of db u) + List.length calls)%nat
  /\ (forall d amount k r m,
        exists t,
          transaction (credit_wallet d u amount k r m) = transaction d ++ [t]
          /\ fields t = Transaction.Build u k amount r (Some (or_empty m))
          /\ wallet_balance (credit_wallet d u amount k r m) u =
             (wallet_balance d u + Transaction.amount (fields t))%float).
Proof.
  intros Hmine. cbv zeta.
  assert (Hall : List.filter (credit_to u) calls = calls).
  { apply filter_all. intros c Hc. unfold credit_to.
    rewrite (Hmine c Hc). apply String.eqb_refl. }
  assert (Hbal := credits_balance calls db u).
  assert (Hlog := credits_log calls db u).
  rewrite Hall in Hbal, Hlog.
  split; [exact Hbal|].
  split; [intros Hnone; now rewrite Hbal, (wallet_balance_absent _ _ Hnone)|].
  split; [exact Hlog|].
  split.
  - now rewrite Hlog, length_app, length_map.
  - intros d amount k r m. eexists. split; [apply credit_wallet_transaction|].
    split; [reflexivity|]. apply credit_wallet_balance.
Qed.

(** A top-up of 100, an instalment of 30.5 debited and a top-up of 0.1 on
    an empty store. *)
Lemma credit_wallet_ledger_witness :
  let calls :=
    [Build_credit "alice" 100%float Transaction.topup None None;
     Build_credit "alice" (-30.5)%float Transaction.instalment_payment
       (Some "1") None;
     Build_credit "alice" 0.1%float Transaction.topup None None] in
  let db' := fold_left apply_credit calls empty_db in
  wallet_balance db' "alice" = 69.599999999999994%float
  /\ List.length (log_of db' "alice") = 3%nat.
Proof.
  cbv zeta.
  refine ((fun H => conj _ _)
            (credit_wallet_ledger empty_db
               [Build_credit "alice" 100%float Transaction.topup None None;
                Build_credit "alice" (-30.5)%float
                  Transaction.instalment_payment (Some "1") None;
                Build_credit "alice" 0.1%float Transaction.topup None None]
               "alice" _)).
  - destruct H as (_ & H & _). rewrite (H eq_refl). vm_compute. reflexivity.
  - destruct H as (_ & _ & _ & H & _). rewrite H. reflexivity.
  - intros c [<-|[<-|[<-|[]]]]; reflexivity.
Defined.

(** ** The distribution loop *)

Lemma apply_credit_ledger db c :
  ledger (apply_credit db c) = ledger db ++ [logged c].
Proof.
  unfold ledger, apply_credit. rewrite credit_wallet_transaction, map_app.
  reflexivity.
Qed.

(** The loop body: nothing at all for a zero entitlement, otherwise one
    credit followed by one notification. *)
Lemma distribute_unfold req p db inv :
  distribute_converted req p db inv =
  if entitled p inv then
    notify (apply_credit db (distribution_credit req p inv))
      (Investment.user_id (fields inv)) "Monthly Distribution"
      (Notification.message (distribution_notice req p inv))
  else db.
Proof.
  unfold distribute_converted, distribute_amount, entitled.
  destruct (share_amount p inv =? 0)%float; reflexivity.
Qed.

Lemma distribute_skip req p db inv :
  entitled p inv = false -> distribute_converted req p db inv = db.
Proof. intros H. now rewrite distribute_unfold, H. Qed.

Section Loop.

Variables (req : RunDistribution) (p : float).

Local Abbreviation credits := (credits_for req p).

Lemma distribute_ledger db inv :
  ledger (distribute_converted req p db inv) = ledger db ++ map logged (credits [inv]).
Proof.
  rewrite distribute_unfold. unfold credits_for. simpl.
  destruct (entitled p inv); simpl.
  - unfold ledger at 1. cbn [notify create_document fst transaction take_oid
      set get notification_]. apply apply_credit_ledger.
  - now rewrite app_nil_r.
Qed.

Lemma distribute_notices db inv :
  notices (distribute_converted req p db inv) =
  notices db ++
  map (distribution_notice req p) (List.filter (entitled p) [inv]).
Proof.
  rewrite distribute_unfold. simpl.
  destruct (entitled p inv); simpl.
  - unfold notices. rewrite notify_notification, map_app.
    unfold apply_credit.
    now destruct (credit_wallet_frame db (to_user (distribution_credit req p inv))
      (credited (distribution_credit req p inv))
      (tx_type (distribution_credit req p inv))
      (reference (distribution_credit req p inv))
      (with_meta (distribution_credit req p inv))) as [-> _].
  - now rewrite app_nil_r.
Qed.

Lemma distribute_balance db inv u :
  wallet_balance (distribute_converted req p db inv) u =
  sum_from (wallet_balance db u)
    (map credited (List.filter (credit_to u) (credits [inv]))).
Proof.
  rewrite distribute_unfold. unfold credits_for. simpl.
  destruct (entitled p inv); simpl; [|reflexivity].
  rewrite notify_balance, apply_credit_balance.
  destruct (credit_to u _); reflexivity.
Qed.

Lemma distribute_frame db inv :
  let db' := distribute_converted req p db inv in
  offering db' = offering db /\ investment db' = investment db
  /\ distribution db' = distribution db.
Proof.
  cbv zeta. rewrite distribute_unfold.
  destruct (entitled p inv); [|tauto].
  destruct (notify_frame (apply_credit db (distribution_credit req p inv))
              (Investment.user_id (fields inv)) "Monthly Distribution"
              (Notification.message (distribution_notice req p inv)))
    as (_ & _ & -> & -> & ->).
  unfold apply_credit.
  destruct (credit_wallet_frame db (to_user (distribution_credit req p inv))
      (credited (distribution_credit req p inv))
      (tx_type (distribution_credit req p inv))
      (reference (distribution_credit req p inv))
      (with_meta (distribution_credit req p inv))) as (_ & -> & -> & ->).
  tauto.
Qed.

Lemma credits_app invs invs' : credits (invs ++ invs') = credits invs ++ credits invs'.
Proof. unfold credits_for. now rewrite filter_app, map_app. Qed.

Lemma sum_from_app start xs ys :
  sum_from start (xs ++ ys) = sum_from (sum_from start xs) ys.
Proof. apply fold_left_app. Qed.

(** The whole loop, by induction on the investments it visits. *)
Lemma loop_ledger invs : forall db,
  ledger (fold_left (distribute_converted req p) invs db) =
  ledger db ++ map logged (credits invs).
Proof.
  induction invs as [|inv invs IH]; intros db; simpl.
  - now rewrite app_nil_r.
  - rewrite IH, distribute_ledger, <- app_assoc, <- map_app.
    now rewrite <- credits_app.
Qed.

Lemma loop_notices invs : forall db,
  notices (fold_left (distribute_converted req p) invs db) =
  notices db ++ map (distribution_notice req p) (List.filter (entitled p) invs).
Proof.
  induction invs as [|inv invs IH]; intros db; simpl.
  - now rewrite app_nil_r.
  - rewrite IH, distribute_notices, <- app_assoc, <- map_app. simpl.
    now destruct (entitled p inv).
Qed.

Lemma loop_balance invs : forall db u,
  wallet_balance (fold_left (distribute_converted req p) invs db) u =
  sum_from (wallet_balance db u)
    (map credited (List.filter (credit_to u) (credits invs))).
Proof.
  induction invs as [|inv invs IH]; intros db u; simpl; [reflexivity|].
  rewrite IH, distribute_balance.
  change (inv :: invs) with ([inv] ++ invs).
  now rewrite credits_app, filter_app, map_app, sum_from_app.
Qed.

Lemma loop_frame invs : forall db,
  let db' := fold_left (distribute_converted req p) invs db in
  offering db' = offering db /\ investment db' = investment db
  /\ distribution db' = distribution db.
Proof.
  induction invs as [|inv invs IH]; intros db; simpl; [tauto|].
  destruct (IH (distribute_converted req p db inv)) as (-> & -> & ->).
  apply distribute_frame.
Qed.

(** Investments with a zero entitlement can be dropped from the batch. *)
Lemma loop_skips_zero invs : forall db,
  fold_left (distribute_converted req p) (List.filter (entitled p) invs) db =
  fold_left (distribute_converted req p) invs db.
Proof.
  induction invs as [|inv invs IH]; intros db; simpl; [reflexivity|].
  destruct (entitled p inv) eqn:E; simpl.
  - apply IH.
  - now rewrite (distribute_skip _ _ _ _ E).
Qed.

End Loop.

(** ** [run_distribution] *)

Lemma or_else_by_field_id {A : Type} (c : collection A) (x : option (doc A)) v :
  or_else x (find_one c (by_field_id v)) = x.
Proof.
  destruct x; [reflexivity|]. simpl. now apply find_one_never.
Qed.

(** *** Conversions that raise *)

Lemma float_of_int_some z s :
  Py.float_of_int z = Some s -> s = Py.nearest_double z /\ converts z.
Proof.
  unfold converts, Py.float_of_int.
  destruct (binary_normalize prec emax z 0 false); intros H;
    inversion H; auto.
Qed.

Lemma float_of_int_cases z : converts z \/ Py.float_of_int z = None.
Proof.
  unfold converts, Py.float_of_int.
  destruct (binary_normalize prec emax z 0 false); auto.
Qed.

Lemma entitlement_converts p inv :
  converts (Investment.shares (fields inv)) ->
  entitlement p inv = Some (share_amount p inv).
Proof. intros H. unfold entitlement. now rewrite H. Qed.

Lemma entitlement_some p inv amount :
  entitlement p inv = Some amount ->
  converts (Investment.shares (fields inv)) /\ amount = share_amount p inv.
Proof.
  unfold entitlement.
  destruct (Py.float_of_int (Investment.shares (fields inv))) as [s|] eqn:E;
    [|discriminate].
  destruct (float_of_int_some _ _ E) as [-> Hc].
  intros H. injection H as <-. auto.
Qed.

Lemma distribute_converts req p db inv :
  converts (Investment.shares (fields inv)) ->
  distribute req p db inv = Some (distribute_converted req p db inv).
Proof.
  intros H. unfold distribute. now rewrite (entitlement_converts p inv H).
Qed.

Lemma distribute_some req p db inv db1 :
  distribute req p db inv = Some db1 ->
  converts (Investment.shares (fields inv))
  /\ db1 = distribute_converted req p db inv.
Proof.
  unfold distribute. destruct (entitlement p inv) as [amount|] eqn:E;
    [|discriminate].
  destruct (entitlement_some _ _ _ E) as [Hc ->].
  intros H. injection H as <-. auto.
Qed.

(** A loop that runs to its end has converted every share count, and has
    done what the converted loop bodies do in turn. *)
Lemma distribute_all_done req p invs : forall db db1,
  distribute_all req p invs db = (db1, None) ->
  Forall (fun inv => converts (Investment.shares (fields inv))) invs
  /\ db1 = fold_left (distribute_converted req p) invs db.
Proof.
  induction invs as [|inv invs IH]; intros db db1; simpl.
  - intros H. injection H as <-. auto.
  - destruct (distribute req p db inv) as [d|] eqn:E; [|discriminate].
    destruct (distribute_some _ _ _ _ _ E) as [Hc ->].
    intros H. destruct (IH _ _ H) as [Hall ->]. auto.
Qed.

Lemma distribute_all_converts req p invs : forall db,
  Forall (fun inv => converts (Investment.shares (fields inv))) invs ->
  distribute_all req p invs db =
  (fold_left (distribute_converted req p) invs db, None).
Proof.
  induction invs as [|inv invs IH]; intros db Hall; simpl; [reflexivity|].
  apply Forall_cons_iff in Hall. destruct Hall as [Hc Hall].
  rewrite (distribute_converts _ _ _ _ Hc). now apply IH.
Qed.

(** Whatever stops it, the loop leaves the store the converted bodies
    leave over the investments it got through. *)
Lemma distribute_all_prefix req p invs : forall db,
  exists pre post,
    invs = pre ++ post
    /\ fst (distribute_all req p invs db) =
       fold_left (distribute_converted req p) pre db.
Proof.
  induction invs as [|inv invs IH]; intros db; simpl.
  - exists [], []. auto.
  - destruct (distribute req p db inv) as [d|] eqn:E.
    + destruct (distribute_some _ _ _ _ _ E) as [_ ->].
      destruct (IH (distribute_converted req p db inv)) as (pre & post & -> & ->).
      exists (inv :: pre), post. auto.
    + exists [], (inv :: invs). auto.
Qed.

(** A run answers [Ok] when the offering is found, has shares, and every
    share count it meets converts; the store it leaves is the one after
    the loop and the insertion of the record. *)
Lemma run_distribution_found db req off :
  find_one (offering db) (by_id (OStr (offering_id req))) = Some off ->
  0 < Offering.shares_total (fields off) ->
  converts (Offering.shares_total (fields off)) ->
  Forall (fun inv => converts (Investment.shares (fields inv)))
    (find (investment db) (active_in (offering_id req))) ->
  let p := (total_amount req / Py.nearest_double (Offering.shares_total (fields off)))%float in
  run_distribution db req =
  (fst (create_document distribution_
          (fold_left (distribute_converted req p)
             (find (investment db) (active_in (offering_id req))) db)
          (distribution_record req p)),
   Ok p).
Proof.
  intros Hoff Hpos Hc Hall. unfold run_distribution.
  rewrite or_else_by_field_id, Hoff.
  destruct (Z.leb_spec (Offering.shares_total (fields off)) 0); [lia|].
  rewrite Hc, (distribute_all_converts _ _ _ _ Hall).
  reflexivity.
Qed.

Lemma run_distribution_ok db req db' p :
  run_distribution db req = (db', Ok p) ->
  exists off,
    find_one (offering db) (by_id (OStr (offering_id req))) = Some off
    /\ 0 < Offering.shares_total (fields off)
    /\ converts (Offering.shares_total (fields off))
    /\ p = (total_amount req / Py.nearest_double (Offering.shares_total (fields off)))%float
    /\ Forall (fun inv => converts (Investment.shares (fields inv)))
         (find (investment db) (active_in (offering_id req)))
    /\ db' =
       fst (create_document distribution_
              (fold_left (distribute_converted req p)
                 (find (investment db) (active_in (offering_id req))) db)
              (distribution_record req p)).
Proof.
  unfold run_distribution. rewrite or_else_by_field_id.
  destruct (find_one (offering db) (by_id (OStr (offering_id req)))) as [off|];
    [|discriminate].
  destruct (Z.leb_spec (Offering.shares_total (fields off)) 0) as [|Hpos];
    [discriminate|].
  destruct (Py.float_of_int (Offering.shares_total (fields off))) as [d|] eqn:Ed;
    [|discriminate].
  destruct (float_of_int_some _ _ Ed) as [-> Hc].
  destruct (distribute_all req _ _ db) as [db1 [e|]] eqn:El; [discriminate|].
  destruct (distribute_all_done _ _ _ _ _ El) as [Hall ->].
  intros E. injection E as <- <-. exists off. auto 10.
Qed.

(** Inserting the record leaves the ledger, the balances and the sink as
    the loop left them. *)
Lemma record_ledger db r :
  ledger (fst (create_document distribution_ db r)) = ledger db.
Proof. reflexivity. Qed.

Lemma record_balance db r u :
  wallet_balance (fst (create_document distribution_ db r)) u = wallet_balance db u.
Proof. reflexivity. Qed.

Lemma record_distribution db r :
  distribution (fst (create_document distribution_ db r)) =
  distribution db ++ [Doc (new_oid (next_oid db)) r].
Proof. reflexivity. Qed.

Lemma credited_investments_spec db req p inv :
  In inv (credited_investments db req p) <->
  In inv (investment db)
  /\ Investment.offering_id (fields inv) = offering_id req
  /\ Investment.status (fields inv) = Investment.active
  /\ (share_amount p inv =? 0)%float = false.
Proof.
  unfold credited_investments, find, entitled, active_in.
  rewrite !filter_In, andb_true_iff, negb_true_iff, String.eqb_eq.
  destruct (Investment.status (fields inv)); simpl;
    intuition (auto; discriminate).
Qed.

(** C2 as stated fails: in a successful run paying nothing into the pool,
    the active investment of 30 shares is entitled to round(30 * 0, 2) = 0
    and no [Transaction] for it is recorded: the log stays empty. *)
Lemma zero_entitlement_receives_no_credit :
  In stored_a (investment db_pool)
  /\ active_in (offering_id run_nothing) stored_a = true
  /\ snd (run_distribution db_pool run_nothing) = Ok 0%float
  /\ ~ In (logged (distribution_credit run_nothing 0%float stored_a))
         (ledger (fst (run_distribution db_pool run_nothing))).
Proof.
  split; [left; reflexivity|].
  split; [reflexivity|].
  split; [vm_compute; reflexivity|].
  vm_compute. tauto.
Qed.

(** C2, amended.  A successful run answers the rate
    [per_share = total_amount / shares_total] of the offering found (whose
    share total, and the share count of every active investment of the
    offering, [float] converted without overflow), and the log grows by
    exactly one [Transaction] for each investment of the offering that is
    active and whose entitlement [round(shares * per_share, 2)] is not
    zero, in the order of the collection: credited to the investment's
    user, of that amount, of kind rental_distribution, referring to the
    investment's id, with meta {offering_id, month, per_share}.  Every
    user's balance moves by those amounts, and an investment that is not
    active (or of another offering, or entitled to zero) is not among the
    credited ones. *)
Theorem run_distribution_credits (db : Database) (req : RunDistribution)
  (db' : Database) (p : float) :
  run_distribution db req = (db', Ok p) ->
  exists off,
    find_one (offering db) (by_id (OStr (offering_id req))) = Some off
    /\ 0 < Offering.shares_total (fields off)
    /\ Py.float_of_int (Offering.shares_total (fields off)) =
       Some (Py.nearest_double (Offering.shares_total (fields off)))
    /\ p = (total_amount req
            / Py.nearest_double (Offering.shares_total (fields off)))%float
    /\ (forall inv,
          In inv (investment db) ->
          Investment.offering_id (fields inv) = offering_id req ->
          Investment.status (fields inv) = Investment.active ->
          Py.float_of_int (Investment.shares (fields inv)) =
          Some (Py.nearest_double (Investment.shares (fields inv))))
    /\ ledger db' =
       ledger db ++
       map (fun inv =>
              Transaction.Build (Investment.user_id (fields inv))
                Transaction.rental_distribution
                (Py.round (Py.nearest_double (Investment.shares (fields inv)) * p)%float 2)
                (Some (_id inv))
                (Some [("offering_id", VStr (offering_id req));
                       ("month", VInt (month req));
                       ("per_share", VFloat p)]))
         (credited_investments db req p)
    /\ (forall u,
          wallet_balance db' u =
          sum_from (wallet_balance db u)
            (amounts_to u
               (map (distribution_credit req p) (credited_investments db req p))))
    /\ (forall inv,
          In inv (credited_investments db req p) <->
          In inv (investment db)
          /\ Investment.offering_id (fields inv) = offering_id req
          /\ Investment.status (fields inv) = Investment.active
          /\ (Py.round (Py.nearest_double (Investment.shares (fields inv)) * p)%float 2
              =? 0)%float = false).
Proof.
  intros Hrun. apply run_distribution_ok in Hrun.
  destruct Hrun as (off & Hoff & Hpos & Hc & Hp & Hall & ->).
  exists off. do 4 (split; [assumption|]). split; [|split; [|split]].
  - intros inv Hin Hoffering Hstatus.
    rewrite Forall_forall in Hall. apply Hall.
    unfold find, active_in. apply filter_In. split; [assumption|].
    rewrite Hoffering, Hstatus, String.eqb_refl. reflexivity.
  - rewrite record_ledger, loop_ledger. unfold credits_for, credited_investments.
    now rewrite map_map.
  - intros u. rewrite record_balance, loop_balance. reflexivity.
  - intros inv. apply credited_investments_spec.
Qed.

(** The run of 1000.55 over 100 shares: 300.16 to the holder of 30 shares
    and 700.38 to the holder of 70. *)
Lemma run_distribution_credits_witness :
  map Transaction.amount (ledger (fst (run_distribution db_pool run_1000))) =
  [300.16%float; 700.38%float].
Proof.
  destruct (run_distribution_credits db_pool run_1000
              (fst (run_distribution db_pool run_1000))
              (total_amount run_1000 / Py.nearest_double 100)%float)
    as (off & _ & _ & _ & _ & _ & -> & _).
  - vm_compute. reflexivity.
  - vm_compute. reflexivity.
Defined.

(** C3.  [run_distribution] answers NotFound (404) when no offering has the
    id, and InvalidState (400) when the offering found has no positive
    [shares_total]; in both cases the store is returned as it was: no
    balance has changed and nothing was appended to the log, to the sink
    or to the distributions. *)
Theorem run_distribution_failures (db : Database) (req : RunDistribution) :
  (find_one (offering db) (by_id (OStr (offering_id req))) = None ->
   run_distribution db req = (db, Raise (NotFound "Offering not found")))
  /\ (forall off,
        find_one (offering db) (by_id (OStr (offering_id req))) = Some off ->
        Offering.shares_total (fields off) <= 0 ->
        run_distribution db req =
        (db, Raise (InvalidState "Offering has no shares_total"))).
Proof.
  unfold run_distribution. rewrite or_else_by_field_id. split.
  - now intros ->.
  - intros off -> Hle.
    destruct (Z.leb_spec (Offering.shares_total (fields off)) 0); [reflexivity|lia].
Qed.

Lemma run_distribution_failures_witness :
  run_distribution empty_db run_1000 =
    (empty_db, Raise (NotFound "Offering not found"))
  /\ run_distribution db_no_shares run_1000 =
    (db_no_shares, Raise (InvalidState "Offering has no shares_total")).
Proof.
  split.
  - apply (proj1 (run_distribution_failures empty_db run_1000)). reflexivity.
  - apply (proj2 (run_distribution_failures db_no_shares run_1000)
             (Doc "0" (Offering.Build "Void" None None 1 0 0%float 1
                         Offering.open None))).
    + reflexivity.
    + simpl. lia.
Defined.

(** C4.  Every successful run appends exactly one [Distribution] record,
    holding the request's offering id, month and total amount and the rate
    it answers, whatever the loop credited. *)
Theorem run_distribution_persists_record (db : Database)
  (req : RunDistribution) (db' : Database) (p : float) :
  run_distribution db req = (db', Ok p) ->
  exists off oid,
    find_one (offering db) (by_id (OStr (offering_id req))) = Some off
    /\ Py.float_of_int (Offering.shares_total (fields off)) =
       Some (Py.nearest_double (Offering.shares_total (fields off)))
    /\ p = (total_amount req
            / Py.nearest_double (Offering.shares_total (fields off)))%float
    /\ distribution db' =
       distribution db ++
       [Doc oid (Distribution.Build (offering_id req) (month req)
                   (total_amount req) p)].
Proof.
  intros Hrun. apply run_distribution_ok in Hrun.
  destruct Hrun as (off & Hoff & Hpos & Hc & Hp & _ & ->).
  exists off. eexists. do 3 (split; [assumption|]).
  rewrite record_distribution.
  now destruct (loop_frame req p (find (investment db) (active_in (offering_id req))) db)
    as (_ & _ & ->).
Qed.

(** A run paying nothing: the rate is 0, nothing is credited, and the
    record is written all the same. *)
Lemma run_distribution_persists_record_witness :
  map fields (distribution (fst (run_distribution db_pool run_nothing))) =
    [Distribution.Build "0" 3 0%float 0%float]
  /\ ledger (fst (run_distribution db_pool run_nothing)) = [].
Proof.
  split; [|vm_compute; reflexivity].
  destruct (run_distribution_persists_record db_pool run_nothing
              (fst (run_distribution db_pool run_nothing)) 0%float)
    as (off & oid & _ & _ & _ & ->).
  - vm_compute. reflexivity.
  - reflexivity.
Defined.

(** The same with no investment at all in the offering. *)
Example run_distribution_without_investors :
  snd (run_distribution db_offering_only run_1000) = Ok 10.0055%float
  /\ map fields (distribution (fst (run_distribution db_offering_only run_1000))) =
     [Distribution.Build "0" 3 1000.55%float 10.0055%float]
  /\ ledger (fst (run_distribution db_offering_only run_1000)) = [].
Proof. vm_compute. auto. Qed.

Lemma distribute_all_app req p before after : forall d,
  distribute_all req p (before ++ after) d =
  match distribute_all req p before d with
  | (d1, None) => distribute_all req p after d1
  | (d1, Some e) => (d1, Some e)
  end.
Proof.
  induction before as [|inv before IH]; intros d; simpl; [reflexivity|].
  destruct (distribute req p d inv); [apply IH | reflexivity].
Qed.

(** C6.  Zero-amount suppression.  For an investment whose entitlement
    [round(shares * per_share, 2)] compares equal to zero, the loop body
    returns the store as it received it (no wallet is created or credited,
    no [Transaction] and no notification is appended); the investment can
    be taken out of any batch without changing what the loop does; and it
    is not among the credited investments of a run. *)
Theorem zero_entitlement_suppressed (req : RunDistribution) (p : float)
  (db : Database) (inv : doc Investment.t) (user_shares : float) :
  Py.float_of_int (Investment.shares (fields inv)) = Some user_shares ->
  (Py.round (user_shares * p)%float 2 =? 0)%float = true ->
  distribute req p db inv = Some db
  /\ (forall before after d,
        distribute_all req p (before ++ inv :: after) d =
        distribute_all req p (before ++ after) d)
  /\ ~ In inv (credited_investments db req p).
Proof.
  intros Hconv Hzero.
  destruct (float_of_int_some _ _ Hconv) as [-> Hc].
  assert (E : entitled p inv = false).
  { unfold entitled, share_amount. now rewrite Hzero. }
  assert (Hskip : forall d, distribute req p d inv = Some d).
  { intros d. rewrite (distribute_converts _ _ _ _ Hc).
    now rewrite (distribute_skip _ _ _ _ E). }
  split; [apply Hskip|]. split.
  - intros before after d. rewrite !distribute_all_app.
    destruct (distribute_all req p before d) as [d1 [e|]]; [reflexivity|].
    simpl. now rewrite Hskip.
  - intros Hin. apply credited_investments_spec in Hin.
    destruct Hin as (_ & _ & _ & Hnz). unfold share_amount in Hnz. congruence.
Qed.

(** One cent over 100 shares: 30 shares are entitled to round(0.003, 2),
    which is zero. *)
Lemma zero_entitlement_suppressed_witness :
  distribute run_one_cent (0.01 / 100)%float db_pool stored_a = Some db_pool.
Proof.
  apply (zero_entitlement_suppressed run_one_cent (0.01 / 100)%float db_pool
           stored_a 30%float).
  - vm_compute. reflexivity.
  - vm_compute. reflexivity.
Defined.

(** C7.  No idempotency.  After a successful run, the same request
    succeeds again with the same rate: the second run appends to the log
    the very credits the first appended, so every credit of a single run
    is there twice and every user has twice as many new entries; every
    user's balance has received the amounts of the run, then the same
    amounts again; and two [Distribution] records of the same content have
    been written. *)
Theorem run_distribution_twice (db : Database) (req : RunDistribution)
  (db1 : Database) (p : float) :
  run_distribution db req = (db1, Ok p) ->
  exists db2 once,
    run_distribution db1 req = (db2, Ok p)
    /\ once = map (distribution_credit req p) (credited_investments db req p)
    /\ ledger db1 = ledger db ++ map logged once
    /\ ledger db2 = ledger db ++ map logged once ++ map logged once
    /\ (forall u,
          List.length (List.filter (transaction_of u) (map logged once ++ map logged once)) =
          (2 * List.length (List.filter (transaction_of u) (map logged once)))%nat)
    /\ (forall u,
          wallet_balance db1 u = sum_from (wallet_balance db u) (amounts_to u once)
          /\ wallet_balance db2 u =
             sum_from (wallet_balance db u) (amounts_to u once ++ amounts_to u once))
    /\ map fields (distribution db2) =
       map fields (distribution db) ++
       [distribution_record req p; distribution_record req p].
Proof.
  intros Hrun. apply run_distribution_ok in Hrun.
  destruct Hrun as (off & Hoff & Hpos & Hc & Hp & Hall & Hdb1).
  set (invs := find (investment db) (active_in (offering_id req))) in *.
  destruct (loop_frame req p invs db) as (Hoffering & Hinvestment & Hdistribution).
  assert (Hoff1 : find_one (offering db1) (by_id (OStr (offering_id req))) = Some off).
  { subst db1. cbn [fst create_document offering take_oid set get distribution_].
    now rewrite Hoffering. }
  assert (Hinvs1 : find (investment db1) (active_in (offering_id req)) = invs).
  { subst db1. cbn [fst create_document investment take_oid set get distribution_].
    now rewrite Hinvestment. }
  assert (Hall1 : Forall (fun inv => converts (Investment.shares (fields inv)))
                    (find (investment db1) (active_in (offering_id req))))
    by (rewrite Hinvs1; exact Hall).
  pose proof (run_distribution_found db1 req off Hoff1 Hpos Hc Hall1) as Hsecond.
  cbv zeta in Hsecond. rewrite <- Hp, Hinvs1 in Hsecond.
  eexists. exists (credits_for req p invs).
  split; [exact Hsecond|]. split; [reflexivity|].
  assert (Hl1 : ledger db1 = ledger db ++ map logged (credits_for req p invs)).
  { subst db1. now rewrite record_ledger, loop_ledger. }
  assert (Hb1 : forall u, wallet_balance db1 u =
            sum_from (wallet_balance db u) (amounts_to u (credits_for req p invs))).
  { intros u. subst db1. now rewrite record_balance, loop_balance. }
  split; [exact Hl1|]. split; [|split; [|split]].
  - cbn [fst]. now rewrite record_ledger, loop_ledger, Hl1, <- app_assoc.
  - intros u. rewrite filter_app, length_app. lia.
  - intros u. split; [apply Hb1|].
    cbn [fst]. now rewrite record_balance, loop_balance, Hb1, sum_from_app.
  - cbn [fst]. rewrite record_distribution.
    destruct (loop_frame req p invs db1) as (_ & _ & ->).
    rewrite Hdb1 at 1. rewrite record_distribution, Hdistribution.
    now rewrite !map_app, <- app_assoc.
Qed.

(** The run of 1000.55, twice: each holder is credited twice. *)
Lemma run_distribution_twice_witness :
  map Transaction.amount
    (ledger (fst (run_distribution (fst (run_distribution db_pool run_1000))
                    run_1000))) =
  [300.16%float; 700.38%float; 300.16%float; 700.38%float].
Proof.
  destruct (run_distribution_twice db_pool run_1000
              (fst (run_distribution db_pool run_1000))
              (total_amount run_1000 / Py.nearest_double 100)%float)
    as (db2 & once & Hsecond & -> & _ & Hl2 & _).
  - vm_compute. reflexivity.
  - rewrite Hsecond. cbn [fst]. rewrite Hl2. vm_compute. reflexivity.
Defined.

(** ** [exit_investment] *)

Lemma by_id_holds {A : Type} (c : collection A) s w :
  find_one c (by_id (OStr s)) = Some w -> _id w = s.
Proof.
  intros H. apply find_one_holds in H. destruct H as [H _].
  now apply String.eqb_eq in H.
Qed.

Lemma by_id_update {A : Type} (v : operand A) (upd : A -> A) (d : doc A) :
  by_id v (Doc (_id d) (upd (fields d))) = by_id v d.
Proof. now destruct v. Qed.

Lemma exit_investment_found db body inv :
  find_one (investment db) (by_id (OStr (investment_id body))) = Some inv ->
  converts (Investment.shares (fields inv)) ->
  exit_investment db body =
  (exited_store db inv, Ok (payout_of (Investment.shares (fields inv)))).
Proof.
  intros H Hc. unfold exit_investment, exit_payout_of.
  rewrite or_else_by_field_id, H, Hc. reflexivity.
Qed.

Lemma exit_investment_raises db body inv :
  find_one (investment db) (by_id (OStr (investment_id body))) = Some inv ->
  Py.float_of_int (Investment.shares (fields inv)) = None ->
  exit_investment db body = (exit_marked db inv, Uncaught OverflowError).
Proof.
  intros H Hc. unfold exit_investment, exit_payout_of.
  rewrite or_else_by_field_id, H, Hc. reflexivity.
Qed.

Lemma exited_store_investment db inv :
  investment (exited_store db inv) =
  update_first (by_id (OStr (_id inv))) (Investment.set_status Investment.exited)
    (investment db).
Proof.
  unfold exited_store.
  destruct (notify_frame
    (credit_wallet
       (update_one investment_ db (by_id (OStr (_id inv)))
          (Investment.set_status Investment.exited))
       (Investment.user_id (fields inv))
       (payout_of (Investment.shares (fields inv)))
       Transaction.exit_payout (Some (_id inv)) None)
    (Investment.user_id (fields inv)) "Exit Processed"
    ("Exit payout $"
       ++ Py.format_2f (payout_of (Investment.shares (fields inv)))
       ++ " credited")%string) as (_ & _ & _ & -> & _).
  now destruct (credit_wallet_frame
    (update_one investment_ db (by_id (OStr (_id inv)))
       (Investment.set_status Investment.exited))
    (Investment.user_id (fields inv))
    (payout_of (Investment.shares (fields inv)))
    Transaction.exit_payout (Some (_id inv)) None) as (_ & _ & -> & _).
Qed.

Lemma exited_store_ledger db inv :
  ledger (exited_store db inv) = ledger db ++ [exit_transaction inv].
Proof.
  unfold exited_store, ledger.
  cbn [notify create_document fst transaction take_oid set get notification_].
  rewrite credit_wallet_transaction, map_app. reflexivity.
Qed.


(** What [$set status] writes: the investment with status exited and its
    other fields as they were. *)
Lemma set_status_exited (i : Investment.t) :
  Investment.set_status Investment.exited i =
  Investment.Build (Investment.user_id i) (Investment.offering_id i)
    (Investment.shares i) (Investment.pledge_amount i)
    (Investment.monthly_instalment i) (Investment.months i) Investment.exited.
Proof. reflexivity. Qed.

(** The investment found by id is found again once the status is written,
    with status exited and nothing else changed. *)
Lemma exit_marked_find db s inv :
  find_one (investment db) (by_id (OStr s)) = Some inv ->
  find_one (investment (exit_marked db inv)) (by_id (OStr s)) =
  Some (Doc s (Investment.set_status Investment.exited (fields inv))).
Proof.
  intros H. unfold exit_marked. cbn [update_one set get investment_ investment].
  pose proof (by_id_holds _ _ _ H) as Hid. rewrite Hid.
  rewrite find_one_update_first by (intros d; apply by_id_update).
  rewrite H. simpl. now rewrite Hid.
Qed.

Lemma exited_store_find db s inv :
  find_one (investment db) (by_id (OStr s)) = Some inv ->
  find_one (investment (exited_store db inv)) (by_id (OStr s)) =
  Some (Doc s (Investment.set_status Investment.exited (fields inv))).
Proof.
  intros H. rewrite exited_store_investment.
  apply (exit_marked_find _ _ _ H).
Qed.







(** ** [create_offering] *)

(** C8 as stated fails: an offering of one car with eleven shares passes
    the model's constraints, and is accepted and stored although
    11 <> 1 * 10. *)
Lemma create_offering_accepts_more_shares :
  Offering.valid offering_11 = true
  /\ Offering.shares_total offering_11 <> Offering.cars_count offering_11 * 10
  /\ create_offering empty_db offering_11 =
     (Build_Database [] [] [] [Doc "0" offering_11] [] [] 1, Ok "0"%string).
Proof.
  split; [vm_compute; reflexivity|].
  split; [discriminate|].
  vm_compute. reflexivity.
Qed.

(** C8, amended.  Offering creation enforces the floor
    [shares_total >= cars_count * 10]: an offering below it is rejected
    with a ValidationError (400) and nothing is stored; any other offering
    is stored as the last document of the collection and its id is
    answered. *)
Theorem create_offering_floor (db : Database) (off : Offering.t) :
  (Offering.shares_total off < Offering.cars_count off * 10 ->
   create_offering db off =
   (db, Raise (ValidationError "shares_total must be at least cars_count * 10")))
  /\ (Offering.cars_count off * 10 <= Offering.shares_total off ->
      exists db' oid,
        create_offering db off = (db', Ok oid)
        /\ offering db' = offering db ++ [Doc oid off]).
Proof.
  unfold create_offering.
  destruct (Z.ltb_spec (Offering.shares_total off) (Offering.cars_count off * 10)).
  - split; [reflexivity | lia].
  - split; [lia|]. intros _. do 2 eexists. split; reflexivity.
Qed.

Lemma create_offering_floor_witness :
  create_offering empty_db offering_short =
    (empty_db, Raise (ValidationError "shares_total must be at least cars_count * 10"))
  /\ snd (create_offering empty_db offering_100) = Ok "0"%string.
Proof.
  split.
  - apply (proj1 (create_offering_floor empty_db offering_short)).
    simpl. lia.
  - destruct (proj2 (create_offering_floor empty_db offering_100))
      as (db' & oid & E & _).
    + simpl. lia.
    + reflexivity.
Defined.

(** ** [ensure_wallet], continued *)

(** C9, at the input where the code departs from it: on a store where
    "u1" has no wallet, [ensure_wallet] stores a wallet of balance 0 and
    answers [None], not the wallet. *)
Theorem ensure_wallet_first_call :
  ensure_wallet empty_db "u1" =
  (Build_Database [Doc "0" (Wallet.Build "u1" 0%float "USD")] [] [] [] [] [] 1,
   None).
Proof. vm_compute. reflexivity. Qed.

(** What does hold of [ensure_wallet]: after a call the user has exactly
    one wallet if none before (of balance 0), and a second call answers
    that wallet and returns the store as it received it. *)
Lemma ensure_wallet_idempotent db u :
  let db1 := fst (ensure_wallet db u) in
  exists w,
    ensure_wallet db1 u = (db1, Some w)
    /\ Wallet.user_id (fields w) = u
    /\ (wallets_of db u = [] ->
        wallets_of db1 u = [w] /\ Wallet.balance (fields w) = 0%float).
Proof.
  cbv zeta.
  destruct (find_one (wallet db) (wallet_of u)) as [w|] eqn:H.
  - rewrite (ensure_wallet_present _ _ _ H). cbn [fst].
    exists w. split; [now apply ensure_wallet_present|].
    destruct (find_one_holds _ _ _ H) as [Hw Hin].
    split; [now apply String.eqb_eq in Hw|].
    unfold wallets_of, find. intros Hnil.
    assert (Hf : In w (List.filter (wallet_of u) (wallet db)))
      by (apply filter_In; auto).
    rewrite Hnil in Hf. destruct Hf.
  - rewrite (ensure_wallet_absent _ _ H). cbn [fst].
    eexists. split; [|split].
    + apply ensure_wallet_present. cbn [take_oid set wallet_ wallet].
      rewrite (find_one_app_missing _ _ _ H). cbn -[new_oid].
      now rewrite String.eqb_refl.
    + reflexivity.
    + intros Hnil. unfold wallets_of, find in *.
      cbn [take_oid set wallet_ wallet]. rewrite filter_app, Hnil.
      cbn -[new_oid]. rewrite String.eqb_refl. auto.
Qed.

(** * Further properties of the code *)

(** ** More on collections *)

Section MoreCollections.

Context {A : Type}.
Implicit Types (c : collection A) (f g : doc A -> bool) (upd : A -> A).

Lemma update_first_missing c f upd :
  find_one c f = None -> update_first f upd c = c.
Proof.
  unfold find_one. induction c as [|d c IH]; simpl; [reflexivity|].
  destruct (f d); [discriminate|]. intros H. now rewrite IH.
Qed.

Lemma update_first_ids c f upd :
  map _id (update_first f upd c) = map _id c.
Proof.
  induction c as [|d c IH]; simpl; [reflexivity|].
  destruct (f d); simpl; congruence.
Qed.

(** Counting the matches of [g] is blind to an update that keeps [g]. *)
Lemma find_update_first_length c f g upd :
  (forall d, g (Doc (_id d) (upd (fields d))) = g d) ->
  List.length (find (update_first f upd c) g) = List.length (find c g).
Proof.
  intros Hkeep. unfold find.
  induction c as [|d c IH]; simpl; [reflexivity|].
  destruct (f d); simpl.
  - rewrite Hkeep. now destruct (g d).
  - destruct (g d); simpl; congruence.
Qed.

Lemma find_one_missing_find c f : find_one c f = None -> find c f = [].
Proof.
  unfold find_one, find. induction c as [|d c IH]; simpl; [reflexivity|].
  destruct (f d); [discriminate | exact IH].
Qed.

(** A document stored under an identifier not in use is the one a lookup
    by that identifier finds. *)
Lemma find_one_inserted c oid (data : A) :
  ~ In oid (map _id c) ->
  find_one (c ++ [Doc oid data]) (by_id (OStr oid)) = Some (Doc oid data).
Proof.
  intros Hnew. rewrite find_one_app_missing.
  - unfold find_one. simpl. now rewrite String.eqb_refl.
  - unfold find_one. induction c as [|d c IH]; simpl; [reflexivity|].
    destruct (String.eqb_spec (_id d) oid) as [E|_].
    + exfalso. apply Hnew. left. exact E.
    + apply IH. intros Hin. apply Hnew. now right.
Qed.

(** With identifiers all different, every document a first-match update
    by identifier leaves under that identifier is the updated one. *)
Lemma update_first_by_id_only c s upd d :
  NoDup (map _id c) ->
  In d (update_first (by_id (OStr s)) upd c) -> _id d = s ->
  exists d0, In d0 c /\ d = Doc s (upd (fields d0)).
Proof.
  induction c as [|x c IH]; simpl; intros Hnd Hin Hid; [contradiction|].
  apply NoDup_cons_iff in Hnd. destruct Hnd as [Hx Hnd'].
  destruct (String.eqb_spec (_id x) s) as [E|E].
  - destruct Hin as [<-|Hin].
    + exists x. rewrite <- E. auto.
    + exfalso. apply Hx. rewrite E, <- Hid. now apply in_map.
  - destruct Hin as [<-|Hin]; [contradiction|].
    destruct (IH Hnd' Hin Hid) as (d0 & Hd0 & ->). exists d0. auto.
Qed.

(** Documents under other identifiers are left as they were. *)
Lemma update_first_by_id_others c s upd d :
  In d (update_first (by_id (OStr s)) upd c) -> _id d <> s -> In d c.
Proof.
  induction c as [|x c IH]; simpl; intros Hin Hid; [contradiction|].
  destruct (String.eqb_spec (_id x) s) as [E|E].
  - destruct Hin as [<-|Hin]; [|now right].
    simpl in Hid. congruence.
  - destruct Hin as [<-|Hin]; [now left|]. right. now apply IH.
Qed.

End MoreCollections.

(** ** What the helpers leave alone *)

Lemma credit_wallet_find_other db u u' amount k r m :
  u' <> u ->
  find_one (wallet (credit_wallet db u amount k r m)) (wallet_of u') =
  find_one (wallet db) (wallet_of u').
Proof.
  intros Hne. rewrite credit_wallet_wallet.
  rewrite find_one_update_first_other.
  - now rewrite ensure_wallet_other.
  - intros d. apply wallet_of_inc_balance.
  - intros d. now apply wallet_of_other.
Qed.

Lemma ensure_wallet_balance db u u' :
  wallet_balance (fst (ensure_wallet db u)) u' = wallet_balance db u'.
Proof.
  destruct (String.eqb_spec u' u) as [->|Hne].
  - destruct (ensure_wallet_found db u) as (w & Hw & Hb).
    unfold wallet_balance at 1. unfold get_wallet. now rewrite Hw.
  - unfold wallet_balance, get_wallet. now rewrite ensure_wallet_other.
Qed.

Lemma ensure_wallet_count db u u' :
  (List.length (wallets_of db u') <= 1)%nat ->
  (List.length (wallets_of (fst (ensure_wallet db u)) u') <= 1)%nat.
Proof.
  intros Hone.
  destruct (find_one (wallet db) (wallet_of u)) as [w|] eqn:H.
  - now rewrite (ensure_wallet_present _ _ _ H).
  - rewrite (ensure_wallet_absent _ _ H). unfold wallets_of, find in *.
    cbn [fst take_oid set wallet_ wallet]. rewrite filter_app, length_app.
    cbn -[new_oid]. destruct (String.eqb_spec u u') as [<-|_]; simpl; [|lia].
    apply find_one_missing_find in H. unfold find in H. rewrite H. simpl. lia.
Qed.

Lemma credit_wallet_count db u u' amount k r m :
  (List.length (wallets_of db u') <= 1)%nat ->
  (List.length (wallets_of (credit_wallet db u amount k r m) u') <= 1)%nat.
Proof.
  intros Hone. unfold wallets_of. rewrite credit_wallet_wallet.
  rewrite find_update_first_length by (intros d; apply wallet_of_inc_balance).
  now apply ensure_wallet_count.
Qed.

(** ** The store an endpoint leaves *)

(** A run leaves the store it received; or, when the loop was stopped by
    an exception, the store after the loop bodies of the investments it
    got through; or the store after the whole loop and the insertion of
    the record. *)
Lemma run_distribution_store db req :
  fst (run_distribution db req) = db
  \/ exists p pre,
       (forall inv,
          In inv pre -> In inv (find (investment db) (active_in (offering_id req))))
       /\ ((fst (run_distribution db req) =
            fold_left (distribute_converted req p) pre db
            /\ exists e, snd (run_distribution db req) = Uncaught e)
           \/ (fst (run_distribution db req) =
               fst (create_document distribution_
                      (fold_left (distribute_converted req p) pre db)
                      (distribution_record req p))
               /\ snd (run_distribution db req) = Ok p)).
Proof.
  unfold run_distribution. rewrite or_else_by_field_id.
  destruct (find_one (offering db) (by_id (OStr (offering_id req)))) as [off|];
    [|now left].
  destruct (Offering.shares_total (fields off) <=? 0); [now left|].
  destruct (Py.float_of_int (Offering.shares_total (fields off))) as [d|];
    [|now left].
  set (invs := find (investment db) (active_in (offering_id req))).
  destruct (distribute_all_prefix req (total_amount req / d)%float invs db)
    as (pre & post & Hinvs & Hfst).
  right. exists (total_amount req / d)%float, pre. split.
  { intros inv Hin. rewrite Hinvs. apply in_or_app. now left. }
  destruct (distribute_all req (total_amount req / d)%float invs db)
    as [db1 [e|]] eqn:El; cbn [fst snd] in *.
  - left. split; [exact Hfst | now exists e].
  - right. destruct (distribute_all_done _ _ _ _ _ El) as [_ ->].
    assert (Hpre : fold_left (distribute_converted req (total_amount req / d)%float) invs db
                   = fold_left (distribute_converted req (total_amount req / d)%float) pre db)
      by exact Hfst.
    rewrite <- Hpre. split; reflexivity.
Qed.

Lemma exit_investment_store db body :
  fst (exit_investment db body) = db
  \/ exists inv,
       find_one (investment db) (by_id (OStr (investment_id body))) = Some inv
       /\ (fst (exit_investment db body) = exited_store db inv
           \/ fst (exit_investment db body) = exit_marked db inv).
Proof.
  destruct (find_one (investment db) (by_id (OStr (investment_id body))))
    as [inv|] eqn:H.
  - right. exists inv. split; [reflexivity|].
    destruct (float_of_int_cases (Investment.shares (fields inv))) as [Hc|Hn].
    + left. now rewrite (exit_investment_found _ _ _ H Hc).
    + right. now rewrite (exit_investment_raises _ _ _ H Hn).
  - left. unfold exit_investment. now rewrite or_else_by_field_id, H.
Qed.

(** ** The balance is the sum of the log *)

Lemma ledger_consistent_same db db' :
  wallet db' = wallet db -> transaction db' = transaction db ->
  ledger_consistent db -> ledger_consistent db'.
Proof.
  intros Hw Ht H u. unfold wallet_balance, get_wallet, log_of.
  rewrite Hw, Ht. apply H.
Qed.

Lemma ledger_consistent_credit db c :
  ledger_consistent db -> ledger_consistent (apply_credit db c).
Proof.
  intros H u. rewrite apply_credit_balance, apply_credit_log, map_app.
  unfold sum_from. rewrite fold_left_app. fold (sum_from 0%float).
  destruct (credit_to u c); simpl; now rewrite H.
Qed.

Lemma ledger_consistent_distribute req p db inv :
  ledger_consistent db -> ledger_consistent (distribute_converted req p db inv).
Proof.
  intros H. rewrite distribute_unfold. destruct (entitled p inv); [|exact H].
  eapply ledger_consistent_same; [| |apply ledger_consistent_credit, H];
    reflexivity.
Qed.

Lemma ledger_consistent_loop req p invs : forall db,
  ledger_consistent db ->
  ledger_consistent (fold_left (distribute_converted req p) invs db).
Proof.
  induction invs as [|inv invs IH]; intros db H; simpl; [exact H|].
  apply IH. now apply ledger_consistent_distribute.
Qed.

Lemma ledger_consistent_exited db inv :
  ledger_consistent db -> ledger_consistent (exited_store db inv).
Proof.
  intros H. unfold exited_store.
  set (db1 := update_one investment_ db (by_id (OStr (_id inv)))
                (Investment.set_status Investment.exited)).
  assert (H1 : ledger_consistent db1)
    by (eapply ledger_consistent_same; [| |exact H]; reflexivity).
  pose proof (ledger_consistent_credit db1
                (Build_credit (Investment.user_id (fields inv))
                   (payout_of (Investment.shares (fields inv)))
                   Transaction.exit_payout (Some (_id inv)) None) H1) as H2.
  eapply ledger_consistent_same; [| |exact H2]; reflexivity.
Qed.

(** X1.  The balance [get_wallet] reports for any user is the float sum,
    from 0, of the amounts of that user's [Transaction]s in log order.  It
    holds of the empty store and every ledger operation and endpoint keeps
    it: [credit_wallet], [notify], [wallet_topup], [run_distribution],
    [exit_investment], [create_offering], [create_investment]. *)
Theorem ledger_consistent_kept (db : Database) :
  ledger_consistent db ->
  (forall u amount k r m, ledger_consistent (credit_wallet db u amount k r m))
  /\ (forall u title msg, ledger_consistent (notify db u title msg))
  /\ (forall t, ledger_consistent (fst (wallet_topup db t)))
  /\ (forall req, ledger_consistent (fst (run_distribution db req)))
  /\ (forall body, ledger_consistent (fst (exit_investment db body)))
  /\ (forall off, ledger_consistent (fst (create_offering db off)))
  /\ (forall inv, ledger_consistent (fst (create_investment db inv))).
Proof.
  intros H. repeat split.
  - intros u amount k r m.
    apply (ledger_consistent_credit db (Build_credit u amount k r m) H).
  - intros u title msg. eapply ledger_consistent_same; [| |exact H]; reflexivity.
  - intros t. unfold wallet_topup. cbn [fst].
    eapply ledger_consistent_same;
      [| |apply (ledger_consistent_credit db
                (Build_credit (TopUp.user_id t) (abs (TopUp.amount t))
                   Transaction.topup None None) H)]; reflexivity.
  - intros req.
    destruct (run_distribution_store db req)
      as [->|(p & pre & _ & [[-> _]|[-> _]])];
      [exact H | now apply ledger_consistent_loop |].
    eapply ledger_consistent_same; [| |apply ledger_consistent_loop, H];
      reflexivity.
  - intros body.
    destruct (exit_investment_store db body) as [->|(inv & _ & [->| ->])];
      [exact H | now apply ledger_consistent_exited |].
    eapply ledger_consistent_same; [| |exact H]; reflexivity.
  - intros off. unfold create_offering.
    destruct (Offering.shares_total off <? Offering.cars_count off * 10);
      [exact H|].
    eapply ledger_consistent_same; [| |exact H]; reflexivity.
  - intros inv. eapply ledger_consistent_same; [| |exact H]; reflexivity.
Qed.

(** From the empty store: a top-up of |-5|, then a run. *)
Lemma ledger_consistent_kept_witness :
  ledger_consistent (fst (wallet_topup empty_db topup_minus_5))
  /\ ledger_consistent (fst (run_distribution empty_db run_1000)).
Proof.
  assert (H0 : ledger_consistent empty_db) by (intros u; reflexivity).
  split.
  - exact (proj1 (proj2 (proj2 (ledger_consistent_kept empty_db H0)))
             topup_minus_5).
  - exact (proj1 (proj2 (proj2 (proj2 (ledger_consistent_kept empty_db H0))))
             run_1000).
Defined.

(** ** One wallet for each user *)

Lemma one_wallet_each_same db db' :
  wallet db' = wallet db -> one_wallet_each db -> one_wallet_each db'.
Proof. intros Hw H u. unfold wallets_of. rewrite Hw. apply H. Qed.

Lemma one_wallet_each_credit db u amount k r m :
  one_wallet_each db -> one_wallet_each (credit_wallet db u amount k r m).
Proof. intros H u'. apply credit_wallet_count, H. Qed.

Lemma one_wallet_each_distribute req p db inv :
  one_wallet_each db -> one_wallet_each (distribute_converted req p db inv).
Proof.
  intros H. rewrite distribute_unfold. destruct (entitled p inv); [|exact H].
  eapply one_wallet_each_same; [|apply one_wallet_each_credit, H]. reflexivity.
Qed.

Lemma one_wallet_each_loop req p invs : forall db,
  one_wallet_each db -> one_wallet_each (fold_left (distribute_converted req p) invs db).
Proof.
  induction invs as [|inv invs IH]; intros db H; simpl; [exact H|].
  apply IH. now apply one_wallet_each_distribute.
Qed.

(** X2.  No user ever gets a second wallet: a store in which every user
    has at most one wallet stays so under [ensure_wallet], [credit_wallet],
    [wallet_topup], [run_distribution] and [exit_investment], whoever is
    credited and whether or not the wallet existed. *)
Theorem one_wallet_each_kept (db : Database) :
  one_wallet_each db ->
  (forall u, one_wallet_each (fst (ensure_wallet db u)))
  /\ (forall u amount k r m, one_wallet_each (credit_wallet db u amount k r m))
  /\ (forall t, one_wallet_each (fst (wallet_topup db t)))
  /\ (forall req, one_wallet_each (fst (run_distribution db req)))
  /\ (forall body, one_wallet_each (fst (exit_investment db body))).
Proof.
  intros H. repeat split.
  - intros u u'. apply ensure_wallet_count, H.
  - intros u amount k r m. now apply one_wallet_each_credit.
  - intros t. unfold wallet_topup. cbn [fst].
    eapply one_wallet_each_same; [|apply one_wallet_each_credit, H]. reflexivity.
  - intros req.
    destruct (run_distribution_store db req)
      as [->|(p & pre & _ & [[-> _]|[-> _]])];
      [exact H | now apply one_wallet_each_loop |].
    eapply one_wallet_each_same; [|apply one_wallet_each_loop, H]. reflexivity.
  - intros body.
    destruct (exit_investment_store db body) as [->|(inv & _ & [->| ->])];
      [exact H | |].
    + unfold exited_store.
      eapply one_wallet_each_same; [|apply one_wallet_each_credit]; [reflexivity|].
      eapply one_wallet_each_same; [|exact H]. reflexivity.
    + eapply one_wallet_each_same; [|exact H]. reflexivity.
Qed.

(** Both holders of the pool are credited twice and own one wallet each. *)
Lemma one_wallet_each_kept_witness :
  one_wallet_each
    (fst (run_distribution (fst (run_distribution db_pool run_1000)) run_1000)).
Proof.
  assert (H0 : one_wallet_each db_pool) by (intros u; simpl; lia).
  pose proof (proj1 (proj2 (proj2 (proj2 (one_wallet_each_kept db_pool H0))))
                run_1000) as H1.
  exact (proj1 (proj2 (proj2 (proj2 (one_wallet_each_kept _ H1)))) run_1000).
Defined.

(** ** The log only grows *)

Lemma log_extends_refl db : log_extends db db.
Proof. exists []. now rewrite app_nil_r. Qed.

Lemma log_extends_trans db1 db2 db3 :
  log_extends db1 db2 -> log_extends db2 db3 -> log_extends db1 db3.
Proof.
  intros [a Ha] [b Hb]. exists (a ++ b). now rewrite Hb, Ha, app_assoc.
Qed.

Lemma log_extends_same db db' :
  transaction db' = transaction db -> log_extends db db'.
Proof. intros H. exists []. now rewrite H, app_nil_r. Qed.

Lemma log_extends_credit db u amount k r m :
  log_extends db (credit_wallet db u amount k r m).
Proof. eexists. apply credit_wallet_transaction. Qed.

Lemma log_extends_distribute req p db inv :
  log_extends db (distribute_converted req p db inv).
Proof.
  rewrite distribute_unfold. destruct (entitled p inv); [|apply log_extends_refl].
  eapply log_extends_trans; [apply log_extends_credit|].
  now apply log_extends_same.
Qed.

Lemma log_extends_loop req p invs : forall db,
  log_extends db (fold_left (distribute_converted req p) invs db).
Proof.
  induction invs as [|inv invs IH]; intros db; simpl; [apply log_extends_refl|].
  eapply log_extends_trans; [apply log_extends_distribute | apply IH].
Qed.

(** X3.  The transaction log is append-only: whatever the arguments and
    the outcome, [credit_wallet], [wallet_topup], [run_distribution] and
    [exit_investment] leave every stored [Transaction] in place, with its
    identifier and content, and only add entries after them. *)
Theorem transactions_append_only (db : Database) :
  (forall u amount k r m, log_extends db (credit_wallet db u amount k r m))
  /\ (forall t, log_extends db (fst (wallet_topup db t)))
  /\ (forall req, log_extends db (fst (run_distribution db req)))
  /\ (forall body, log_extends db (fst (exit_investment db body))).
Proof.
  repeat split.
  - intros. apply log_extends_credit.
  - intros t. unfold wallet_topup. cbn [fst].
    eapply log_extends_trans; [apply log_extends_credit|].
    now apply log_extends_same.
  - intros req.
    destruct (run_distribution_store db req)
      as [->|(p & pre & _ & [[-> _]|[-> _]])];
      [apply log_extends_refl | apply log_extends_loop |].
    eapply log_extends_trans; [apply log_extends_loop|].
    now apply log_extends_same.
  - intros body.
    destruct (exit_investment_store db body) as [->|(inv & _ & [->| ->])];
      [apply log_extends_refl | | now apply log_extends_same].
    unfold exited_store.
    eapply log_extends_trans; [|apply log_extends_same; reflexivity].
    eapply log_extends_trans; [|apply log_extends_credit].
    now apply log_extends_same.
Qed.

(** ** What a run reads and what it leaves alone *)

(** X4.  [run_distribution] only reads the offerings and the investments:
    whatever the request and the outcome, both collections are afterwards
    exactly as they were (no status, share count or offering changes). *)
Theorem run_distribution_reads_only (db : Database) (req : RunDistribution) :
  offering (fst (run_distribution db req)) = offering db
  /\ investment (fst (run_distribution db req)) = investment db.
Proof.
  destruct (run_distribution_store db req)
    as [->|(p & pre & _ & [[-> _]|[-> _]])]; [tauto| |].
  - destruct (loop_frame req p pre db) as (-> & -> & _). tauto.
  - cbn [fst create_document offering investment take_oid set get distribution_].
    destruct (loop_frame req p pre db) as (-> & -> & _). tauto.
Qed.

(** X5.  A successful run emits exactly one notification per credit, in
    the order of the credits: to the investment's user, titled "Monthly
    Distribution", with the amount rendered to two decimals and the month
    of the request; a failed run emits none. *)
Theorem run_distribution_notifies (db : Database) (req : RunDistribution) :
  (forall db' p,
     run_distribution db req = (db', Ok p) ->
     notices db' =
     notices db ++
     map (fun inv =>
            Notification.Build (Investment.user_id (fields inv))
              "Monthly Distribution"
              ("$" ++ Py.format_2f
                        (Py.round (Py.nearest_double (Investment.shares (fields inv)) * p)%float 2)
                 ++ " credited for month " ++ Py.str_of_int (month req))%string
              false)
       (credited_investments db req p))
  /\ (forall db' e,
        run_distribution db req = (db', Raise e) -> notices db' = notices db).
Proof.
  split.
  - intros db' p Hrun. apply run_distribution_ok in Hrun.
    destruct Hrun as (off & _ & _ & _ & _ & _ & ->).
    change (notices (fst (create_document distribution_ ?d ?r))) with (notices d).
    rewrite loop_notices. reflexivity.
  - intros db' e Hrun.
    destruct (run_distribution_store db req)
      as [E|(p & pre & _ & [[_ [e' E]]|[_ E]])].
    + rewrite Hrun in E. simpl in E. now subst.
    + rewrite Hrun in E. discriminate.
    + rewrite Hrun in E. discriminate.
Qed.

Lemma run_distribution_notifies_witness :
  map Notification.message
    (skipn 2 (notices (fst (run_distribution db_pool run_1000)))) =
  ["$300.16 credited for month 3"%string; "$700.38 credited for month 3"%string].
Proof.
  rewrite (proj1 (run_distribution_notifies db_pool run_1000)
             (fst (run_distribution db_pool run_1000))
             (total_amount run_1000 / Py.nearest_double 100)%float).
  - vm_compute. reflexivity.
  - vm_compute. reflexivity.
Defined.

Lemma loop_find_other req p u invs : forall db,
  (forall inv, In inv invs -> Investment.user_id (fields inv) <> u) ->
  find_one (wallet (fold_left (distribute_converted req p) invs db)) (wallet_of u) =
  find_one (wallet db) (wallet_of u).
Proof.
  induction invs as [|inv invs IH]; intros db Hnot; simpl; [reflexivity|].
  rewrite IH by (intros i Hi; apply Hnot; now right).
  rewrite distribute_unfold. destruct (entitled p inv); [|reflexivity].
  change (wallet (notify ?d _ _ _)) with (wallet d).
  unfold apply_credit. apply credit_wallet_find_other.
  intros E. apply (Hnot inv); [now left | now symmetry].
Qed.

(** X6.  A run touches only the wallets of the investors of the offering:
    for a user holding no active investment in it, the stored wallet is
    afterwards what it was, and none is created if there was none. *)
Theorem run_distribution_spares_others (db : Database) (req : RunDistribution)
  (u : string) :
  (forall inv,
     In inv (investment db) -> Investment.user_id (fields inv) = u ->
     active_in (offering_id req) inv = false) ->
  find_one (wallet (fst (run_distribution db req))) (wallet_of u) =
  find_one (wallet db) (wallet_of u).
Proof.
  intros Hnone.
  assert (Hpre : forall pre,
            (forall inv,
               In inv pre ->
               In inv (find (investment db) (active_in (offering_id req)))) ->
            forall inv, In inv pre -> Investment.user_id (fields inv) <> u).
  { intros pre Hsub inv Hin E. apply Hsub, filter_In in Hin.
    destruct Hin as [Hin Hact]. rewrite (Hnone inv Hin E) in Hact. discriminate. }
  destruct (run_distribution_store db req)
    as [->|(p & pre & Hsub & [[-> _]|[-> _]])]; [reflexivity| |].
  - apply loop_find_other, Hpre, Hsub.
  - change (wallet (fst (create_document distribution_ ?d ?r))) with (wallet d).
    apply loop_find_other, Hpre, Hsub.
Qed.

(** "carol" holds nothing in the pool: the run creates no wallet for her. *)
Lemma run_distribution_spares_others_witness :
  find_one (wallet (fst (run_distribution db_pool run_1000))) (wallet_of "carol")
  = None.
Proof.
  rewrite (run_distribution_spares_others db_pool run_1000 "carol").
  - reflexivity.
  - intros inv [<-|[<-|[]]]; discriminate.
Defined.

(** ** What an exit changes *)

Lemma by_id_other {A : Type} (s s' : string) (d : doc A) :
  s' <> s -> by_id (OStr s) d = true -> by_id (OStr s') d = false.
Proof.
  simpl. intros Hne H. apply String.eqb_eq in H. apply String.eqb_neq.
  congruence.
Qed.

Lemma exited_store_frame db inv :
  offering (exited_store db inv) = offering db
  /\ distribution (exited_store db inv) = distribution db.
Proof.
  unfold exited_store.
  cbn [notify create_document fst offering distribution take_oid set get
       notification_].
  destruct (credit_wallet_frame
    (update_one investment_ db (by_id (OStr (_id inv)))
       (Investment.set_status Investment.exited))
    (Investment.user_id (fields inv))
    (payout_of (Investment.shares (fields inv)))
    Transaction.exit_payout (Some (_id inv)) None) as (_ & -> & _ & ->).
  split; reflexivity.
Qed.

(** X7.  [exit_investment] rewrites one investment and nothing else of the
    collection: the identifiers in the collection and their order are the
    same afterwards, every lookup by another identifier answers what it
    answered before, and the offerings and distribution records are
    untouched; when the investment is not found the whole store is
    returned as it was. *)
Theorem exit_investment_touches_one (db : Database) (body : ExitRequest) :
  let db' := fst (exit_investment db body) in
  map _id (investment db') = map _id (investment db)
  /\ (forall s,
        s <> investment_id body ->
        find_one (investment db') (by_id (OStr s)) =
        find_one (investment db) (by_id (OStr s)))
  /\ offering db' = offering db
  /\ distribution db' = distribution db
  /\ (find_one (investment db) (by_id (OStr (investment_id body))) = None ->
      db' = db).
Proof.
  cbv zeta.
  destruct (exit_investment_store db body) as [->|(inv & Hinv & Hstore)].
  - repeat split; auto.
  - pose proof (by_id_holds _ _ _ Hinv) as Hid.
    assert (Hshape :
              investment (fst (exit_investment db body)) =
              update_first (by_id (OStr (investment_id body)))
                (Investment.set_status Investment.exited) (investment db)
              /\ offering (fst (exit_investment db body)) = offering db
              /\ distribution (fst (exit_investment db body)) = distribution db).
    { destruct Hstore as [-> | ->].
      - rewrite exited_store_investment, Hid.
        destruct (exited_store_frame db inv) as [-> ->]. auto.
      - unfold exit_marked. cbn [update_one set get investment_ investment
          offering distribution]. rewrite Hid. auto. }
    destruct Hshape as (-> & -> & ->).
    split; [apply update_first_ids|].
    split.
    { intros s Hs. apply find_one_update_first_other.
      - intros d. apply by_id_update.
      - intros d. now apply by_id_other. }
    split; [reflexivity|]. split; [reflexivity|].
    intros Hnone. rewrite Hnone in Hinv. discriminate.
Qed.

(** Exiting investment "1" of the pool leaves the lookup of "3" as it
    was. *)
Lemma exit_investment_touches_one_witness :
  find_one (investment (fst (exit_investment db_pool (Build_ExitRequest "1"))))
    (by_id (OStr "3")) =
  Some (Doc "3" investment_b).
Proof.
  rewrite (proj1 (proj2 (exit_investment_touches_one db_pool
                           (Build_ExitRequest "1"))) "3"%string).
  - reflexivity.
  - discriminate.
Defined.

Lemma filter_comm {A : Type} (f g : A -> bool) (l : list A) :
  List.filter f (List.filter g l) = List.filter g (List.filter f l).
Proof.
  induction l as [|x l IH]; simpl; [reflexivity|].
  destruct (f x) eqn:Hf, (g x) eqn:Hg; simpl; rewrite ?Hf, ?Hg; congruence.
Qed.

(** With identifiers all different, filtering after a first-match update
    by identifier that makes the document fail the filter is filtering
    before it and dropping that identifier. *)
Lemma filter_update_first_by_id {A : Type} (P : doc A -> bool)
  (c : collection A) (s : string) (upd : A -> A) :
  NoDup (map _id c) ->
  (forall a, P (Doc s (upd a)) = false) ->
  List.filter P (update_first (by_id (OStr s)) upd c) =
  List.filter (fun d => negb (by_id (OStr s) d)) (List.filter P c).
Proof.
  intros Hnd Hfail. induction c as [|x c IH]; simpl; [reflexivity|].
  apply NoDup_cons_iff in Hnd. destruct Hnd as [Hx Hnd].
  destruct (String.eqb_spec (_id x) s) as [E|E]; simpl.
  - rewrite E, Hfail.
    assert (Hrest : List.filter (fun d => negb (by_id (OStr s) d)) (List.filter P c)
                    = List.filter P c).
    { apply filter_all. intros d Hd. apply filter_In in Hd. destruct Hd as [Hd _].
      simpl. destruct (String.eqb_spec (_id d) s) as [E'|_]; [|reflexivity].
      exfalso. apply Hx. rewrite E, <- E'. now apply in_map. }
    destruct (P x); simpl.
    + destruct (String.eqb_spec (_id x) s); [exact (eq_sym Hrest) | contradiction].
    + exact (eq_sym Hrest).
  - destruct (P x); simpl.
    + destruct (String.eqb_spec (_id x) s); [contradiction|]. simpl.
      now rewrite IH.
    + now apply IH.
Qed.

(** X8.  An exited investment takes no part in later distributions: in a
    store whose investments have different identifiers, after a successful
    exit the investments any run credits are the ones it credited before,
    in the same order, without the exited one. *)
Theorem exited_investment_not_credited (db : Database) (body : ExitRequest)
  (db' : Database) (payout : float) :
  NoDup (map _id (investment db)) ->
  exit_investment db body = (db', Ok payout) ->
  forall req p,
    credited_investments db' req p =
    List.filter (fun d => negb (String.eqb (_id d) (investment_id body)))
      (credited_investments db req p).
Proof.
  intros Hnd Hexit req p.
  destruct (find_one (investment db) (by_id (OStr (investment_id body))))
    as [inv|] eqn:Hinv.
  - destruct (float_of_int_cases (Investment.shares (fields inv))) as [Hc|Hn];
      [|rewrite (exit_investment_raises _ _ _ Hinv Hn) in Hexit; discriminate].
    rewrite (exit_investment_found _ _ _ Hinv Hc) in Hexit.
    injection Hexit as <- _.
    pose proof (by_id_holds _ _ _ Hinv) as Hid.
    unfold credited_investments, find.
    rewrite exited_store_investment, Hid.
    rewrite filter_update_first_by_id.
    + apply filter_comm.
    + exact Hnd.
    + intros a. unfold active_in. simpl. apply andb_false_r.
  - unfold exit_investment in Hexit.
    rewrite or_else_by_field_id, Hinv in Hexit. discriminate.
Qed.

(** After the exit of the 30 shares, the run credits the 70 shares only. *)
Lemma exited_investment_not_credited_witness :
  map _id
    (credited_investments (fst (exit_investment db_pool (Build_ExitRequest "1")))
       run_1000 10.0055%float) =
  ["3"%string].
Proof.
  rewrite (exited_investment_not_credited db_pool (Build_ExitRequest "1")
             (fst (exit_investment db_pool (Build_ExitRequest "1")))
             2700%float).
  - vm_compute. reflexivity.
  - vm_compute. repeat constructor; simpl; intuition discriminate.
  - vm_compute. reflexivity.
Defined.

(** ** Creating, then using *)

(** X9.  An offering accepted by [create_offering] can be distributed
    straight away: when the identifier the store hands out is not in use
    among the offerings, the offering has at least one car and its floor
    of shares, and its share total and the share counts of the investments
    in the store are integers [float] converts, a run on the identifier
    answered finds the offering and succeeds with the rate
    [total_amount / shares_total]. *)
Theorem created_offering_distributes (db : Database) (off : Offering.t)
  (m : Z) (total divisor : float) :
  next_unused db (offering db) ->
  1 <= Offering.cars_count off ->
  Offering.cars_count off * 10 <= Offering.shares_total off ->
  Py.float_of_int (Offering.shares_total off) = Some divisor ->
  (forall inv,
     In inv (investment db) ->
     Py.float_of_int (Investment.shares (fields inv)) <> None) ->
  exists db1 oid,
    create_offering db off = (db1, Ok oid)
    /\ find_one (offering db1) (by_id (OStr oid)) = Some (Doc oid off)
    /\ snd (run_distribution db1 (Build_RunDistribution oid m total)) =
       Ok (total / divisor)%float.
Proof.
  intros Hnew Hcars Hfloor Hdiv Hinvs. unfold create_offering.
  destruct (Z.ltb_spec (Offering.shares_total off) (Offering.cars_count off * 10));
    [lia|].
  exists (fst (create_document offering_ db off)), (new_oid (next_oid db)).
  split; [reflexivity|].
  assert (Hfind : find_one
            (offering (fst (create_document offering_ db off)))
            (by_id (OStr (new_oid (next_oid db)))) =
          Some (Doc (new_oid (next_oid db)) off)).
  { cbn [create_document fst offering take_oid set get offering_].
    now apply find_one_inserted. }
  split; [exact Hfind|].
  destruct (float_of_int_some _ _ Hdiv) as [-> Hc].
  rewrite (run_distribution_found _ (Build_RunDistribution _ m total) _ Hfind).
  - reflexivity.
  - simpl. lia.
  - exact Hc.
  - apply Forall_forall. intros inv Hin.
    apply filter_In in Hin. destruct Hin as [Hin _].
    destruct (float_of_int_cases (Investment.shares (fields inv))) as [H'|H'];
      [exact H'|].
    exfalso. exact (Hinvs inv Hin H').
Qed.

Lemma created_offering_distributes_witness :
  snd (run_distribution (fst (create_offering empty_db offering_100))
         (Build_RunDistribution "0" 3 1000.55%float)) =
  Ok 10.0055%float.
Proof.
  destruct (created_offering_distributes empty_db offering_100 3 1000.55%float
              100%float)
    as (db1 & oid & E & _ & R).
  - intros [].
  - simpl. lia.
  - simpl. lia.
  - vm_compute. reflexivity.
  - intros inv [].
  - pose proof (f_equal fst E) as E1. pose proof (f_equal snd E) as E2.
    cbn [fst snd] in E1, E2. vm_compute in E2. injection E2 as <-.
    rewrite <- E1 in R. rewrite R. vm_compute. reflexivity.
Defined.

(** X10.  An investment stored by [create_investment] can be exited by the
    identifier answered: when that identifier is not in use among the
    investments and the share count is one [float] converts, the exit
    succeeds with the payout [round(shares * 0.9 * 100, 2)], stores the
    investment with status exited and its other fields as given, and logs
    the payout for the investment's user under that identifier. *)
Theorem created_investment_exits (db : Database) (inv : Investment.t)
  (shares : float) :
  next_unused db (investment db) ->
  Py.float_of_int (Investment.shares inv) = Some shares ->
  let payout := Py.round (shares * 0.9 * 100)%float 2 in
  exists db1 oid db2,
    create_investment db inv = (db1, Ok oid)
    /\ exit_investment db1 (Build_ExitRequest oid) = (db2, Ok payout)
    /\ find_one (investment db2) (by_id (OStr oid)) =
       Some (Doc oid
               (Investment.Build (Investment.user_id inv)
                  (Investment.offering_id inv) (Investment.shares inv)
                  (Investment.pledge_amount inv)
                  (Investment.monthly_instalment inv) (Investment.months inv)
                  Investment.exited))
    /\ ledger db2 =
       ledger db ++
       [Transaction.Build (Investment.user_id inv) Transaction.exit_payout
          payout (Some oid) (Some [])].
Proof.
  intros Hnew Hs. cbv zeta. destruct (float_of_int_some _ _ Hs) as [-> Hc].
  unfold create_investment.
  set (oid := new_oid (next_oid db)).
  assert (Hfind : find_one
            (investment
               (notify (fst (create_document investment_ db inv))
                  (Investment.user_id inv) "Investment Created"
                  ("You pledged " ++ Py.str_of_int (Investment.shares inv)
                     ++ " shares")%string))
            (by_id (OStr oid)) = Some (Doc oid inv)).
  { cbn [notify create_document fst investment take_oid set get investment_
         notification_].
    now apply find_one_inserted. }
  eexists _, oid, _. split; [reflexivity|].
  split; [apply (exit_investment_found _ (Build_ExitRequest oid) _ Hfind Hc)|].
  split.
  - rewrite <- set_status_exited. apply (exited_store_find _ _ _ Hfind).
  - rewrite exited_store_ledger. reflexivity.
Qed.

Lemma created_investment_exits_witness :
  snd (exit_investment (fst (create_investment empty_db investment_a))
         (Build_ExitRequest "0")) =
  Ok 2700%float.
Proof.
  destruct (created_investment_exits empty_db investment_a 30%float)
    as (db1 & oid & db2 & E & X & _).
  - intros [].
  - vm_compute. reflexivity.
  - pose proof (f_equal fst E) as E1. pose proof (f_equal snd E) as E2.
    cbn [fst snd] in E1, E2. vm_compute in E2. injection E2 as <-.
    rewrite <- E1 in X. rewrite X. vm_compute. reflexivity.
Defined.

(** ** Top-ups and instalments *)

(** The magnitude of a float is not below zero, and its opposite not
    above (neither comparison holds of nan). *)
Lemma abs_not_negative (x : float) : (abs x <? 0)%float = false.
Proof.
  rewrite ltb_spec, abs_spec. change (Prim2SF 0%float) with (S754_zero false).
  now destruct (Prim2SF x) as [s| s| |s m e].
Qed.

Lemma opp_abs_not_positive (x : float) : (0 <? - abs x)%float = false.
Proof.
  rewrite ltb_spec, opp_spec, abs_spec.
  change (Prim2SF 0%float) with (S754_zero false).
  now destruct (Prim2SF x) as [s| s| |s m e].
Qed.

(** X11.  [wallet_topup] credits the magnitude of the amount, whatever its
    sign: it always answers ok, logs one topup [Transaction] of
    [abs(amount)] (never below zero) with no reference and an empty meta,
    moves the user's balance by that much, and emits one notification
    whose text renders the amount as it was given. *)
Theorem wallet_topup_credits_magnitude (db : Database) (t : TopUp.t) :
  let u := TopUp.user_id t in
  let db' := fst (wallet_topup db t) in
  snd (wallet_topup db t) = Ok tt
  /\ ledger db' =
     ledger db ++
     [Transaction.Build u Transaction.topup (abs (TopUp.amount t)) None (Some [])]
  /\ wallet_balance db' u = (wallet_balance db u + abs (TopUp.amount t))%float
  /\ (abs (TopUp.amount t) <? 0)%float = false
  /\ notices db' =
     notices db ++
     [Notification.Build u "Wallet Top-up"
        ("+$" ++ Py.format_2f (TopUp.amount t) ++ " added to your wallet")%string
        false].
Proof.
  cbv zeta. unfold wallet_topup. cbn [fst snd].
  split; [reflexivity|].
  split.
  { change (ledger (notify ?d _ _ _)) with (ledger d).
    apply (apply_credit_ledger db
             (Build_credit (TopUp.user_id t) (abs (TopUp.amount t))
                Transaction.topup None None)). }
  split; [rewrite notify_balance; apply credit_wallet_balance|].
  split; [apply abs_not_negative|].
  unfold notices. rewrite notify_notification, map_app.
  now destruct (credit_wallet_frame db (TopUp.user_id t) (abs (TopUp.amount t))
                  Transaction.topup None None) as [-> _].
Qed.

(** X12.  [pay_instalment] debits the magnitude of the amount with no
    check of the balance: it always answers ok, stores one instalment
    marked paid for the clock's month with the amount as given, logs one
    instalment_payment [Transaction] of [-abs(amount)] (never above zero)
    referring to the investment id given, and moves the user's balance by
    that much, below zero if need be. *)
Theorem pay_instalment_debits_magnitude (utcnow_month : Z) (b : Backend)
  (payload : InstalmentPayment.t) :
  let u := InstalmentPayment.user_id payload in
  let a := InstalmentPayment.amount payload in
  let b' := fst (pay_instalment utcnow_month b payload) in
  snd (pay_instalment utcnow_month b payload) = Ok tt
  /\ map fields (instalment b') =
     map fields (instalment b) ++
     [Instalment.Build u (InstalmentPayment.investment_id payload) a
        utcnow_month true]
  /\ ledger (core b') =
     ledger (core b) ++
     [Transaction.Build u Transaction.instalment_payment (- abs a)%float
        (Some (InstalmentPayment.investment_id payload)) (Some [])]
  /\ wallet_balance (core b') u = (wallet_balance (core b) u + - abs a)%float
  /\ (0 <? - abs a)%float = false.
Proof.
  cbv zeta. unfold pay_instalment. cbn [fst snd].
  split; [reflexivity|].
  split; [cbn [create_document_in on_core fst instalment outer_set outer_get
               instalment_]; now rewrite map_app|].
  cbn [create_document_in on_core fst core outer_set outer_get instalment_].
  split.
  { change (ledger (notify ?d _ _ _)) with (ledger d).
    exact (apply_credit_ledger (take_oid (core b))
             (Build_credit (InstalmentPayment.user_id payload)
                (- abs (InstalmentPayment.amount payload))%float
                Transaction.instalment_payment
                (Some (InstalmentPayment.investment_id payload)) None)). }
  split; [|apply opp_abs_not_positive].
  rewrite notify_balance, credit_wallet_balance. reflexivity.
Qed.

(** On the empty store, 12.5 paid leaves the balance at -12.5. *)
Example pay_instalment_overdraws :
  wallet_balance (core (fst (pay_instalment 11 empty_backend payment_12))) "frank"
  = (-12.5)%float.
Proof. vm_compute. reflexivity. Qed.

(** ** Users and KYC records *)

Lemma create_user_new b u :
  find_one (user b) (with_email (User.email u)) = None ->
  create_user b u =
  (on_core (fun db => fst (ensure_wallet db (new_oid (next_oid (core b)))))
     (fst (create_document_in user_ b u)),
   Ok (Build_UserCreated (new_oid (next_oid (core b))) None)).
Proof. intros H. unfold create_user. now rewrite H. Qed.

(** X13.  [create_user] is an upsert by email.  When a user with the email
    exists, the first such user's id is answered with message "exists" and
    nothing is written.  Otherwise the user is stored as the last document,
    its new id is answered without a message, and a wallet is looked up or
    created under that id (of balance 0 when none was there).  Either way,
    repeating the call answers the same id with "exists" and leaves the
    store as the first call left it. *)
Theorem create_user_upsert (b : Backend) (u : User.t) :
  (forall existing,
     find_one (user b) (with_email (User.email u)) = Some existing ->
     create_user b u =
     (b, Ok (Build_UserCreated (_id existing) (Some "exists"%string))))
  /\ (find_one (user b) (with_email (User.email u)) = None ->
      exists b' oid w,
        create_user b u = (b', Ok (Build_UserCreated oid None))
        /\ user b' = user b ++ [Doc oid u]
        /\ find_one (wallet (core b')) (wallet_of oid) = Some w
        /\ Wallet.balance (fields w) = wallet_balance (core b) oid)
  /\ (exists id msg,
        snd (create_user b u) = Ok (Build_UserCreated id msg)
        /\ create_user (fst (create_user b u)) u =
           (fst (create_user b u),
            Ok (Build_UserCreated id (Some "exists"%string)))).
Proof.
  split; [|split].
  - intros existing H. unfold create_user. now rewrite H.
  - intros H. rewrite (create_user_new _ _ H).
    destruct (ensure_wallet_found (take_oid (core b)) (new_oid (next_oid (core b))))
      as (w & Hw & Hb).
    eexists _, _, w. split; [reflexivity|].
    split; [reflexivity|]. split; [exact Hw | exact Hb].
  - destruct (find_one (user b) (with_email (User.email u))) as [existing|] eqn:H.
    + exists (_id existing), (Some "exists"%string).
      unfold create_user. rewrite H. cbn [fst snd]. now rewrite H.
    + exists (new_oid (next_oid (core b))), None.
      rewrite (create_user_new _ _ H). cbn [fst snd]. split; [reflexivity|].
      unfold create_user at 1.
      cbn [on_core create_document_in fst user outer_set outer_get user_].
      rewrite (find_one_app_missing _ _ _ H).
      unfold find_one, with_email. cbn [find fields _id List.find User.email].
      now rewrite String.eqb_refl.
Qed.

Lemma create_user_upsert_witness :
  snd (create_user empty_backend user_erin) = Ok (Build_UserCreated "0" None)
  /\ snd (create_user (fst (create_user empty_backend user_erin)) user_erin) =
     Ok (Build_UserCreated "0" (Some "exists"%string)).
Proof.
  split.
  - destruct (proj1 (proj2 (create_user_upsert empty_backend user_erin)) eq_refl)
      as (b' & oid & w & E & _).
    pose proof (f_equal snd E) as E2. cbn [snd] in E2. rewrite E2.
    vm_compute in E2. injection E2 as <-. reflexivity.
  - destruct (proj2 (proj2 (create_user_upsert empty_backend user_erin)))
      as (id & msg & E1 & ->).
    cbn [snd]. vm_compute in E1. now injection E1 as <- _.
Defined.

Lemma outer_set_kyc_same b : outer_set kyc_ b (kyc b) = b.
Proof. now destruct b. Qed.

(** X14.  [set_kyc_status] never changes a KYC record: for every store,
    identifier and decision it answers 0 updated and returns the store as
    it was.  When a record has the identifier, the filter compares [_id]
    with that whole record and matches nothing; when none has it, nothing
    matches the identifier either. *)
Theorem set_kyc_status_updates_nothing (b : Backend) (kyc_id : string)
  (status : verdict) :
  set_kyc_status b kyc_id status = (b, Ok 0).
Proof.
  unfold set_kyc_status.
  destruct (find_one (kyc b) (by_id (OStr kyc_id))) as [d|] eqn:H; cbn [found_or_id].
  - assert (Hnone : find_one (kyc b) (by_id (ODoc (Some d))) = None)
      by now apply find_one_never.
    rewrite Hnone, (update_first_missing _ _ _ Hnone).
    now rewrite outer_set_kyc_same.
  - rewrite H, (update_first_missing _ _ _ H).
    now rewrite outer_set_kyc_same.
Qed.

(** A record submitted and then approved is pending still. *)
Example submitted_kyc_stays_pending :
  map (fun d => KYC.status (fields d))
    (kyc (fst (set_kyc_status (fst (submit_kyc empty_backend kyc_erin)) "0"
                 Approved))) =
  [KYC.pending].
Proof. vm_compute. reflexivity. Qed.

(** ** The invariants, on the whole database *)

Lemma ledger_consistent_ensure db u :
  ledger_consistent db -> ledger_consistent (fst (ensure_wallet db u)).
Proof.
  intros H u'. rewrite ensure_wallet_balance. unfold log_of.
  destruct (ensure_wallet_frame db u) as [-> _]. apply H.
Qed.

(** X15.  The endpoints around the ledger keep its two invariants (every
    balance is the float sum of the user's log; no user has two wallets):
    [create_user], [submit_kyc], [set_kyc_status] and [pay_instalment]. *)
Theorem backend_keeps_ledger (b : Backend) :
  ledger_consistent (core b) -> one_wallet_each (core b) ->
  (forall u, ledger_consistent (core (fst (create_user b u)))
             /\ one_wallet_each (core (fst (create_user b u))))
  /\ (forall k, ledger_consistent (core (fst (submit_kyc b k)))
                /\ one_wallet_each (core (fst (submit_kyc b k))))
  /\ (forall i v, ledger_consistent (core (fst (set_kyc_status b i v)))
                  /\ one_wallet_each (core (fst (set_kyc_status b i v))))
  /\ (forall m p, ledger_consistent (core (fst (pay_instalment m b p)))
                  /\ one_wallet_each (core (fst (pay_instalment m b p)))).
Proof.
  intros Hc Ho.
  assert (Hc' : ledger_consistent (take_oid (core b)))
    by (eapply ledger_consistent_same; [| |exact Hc]; reflexivity).
  assert (Ho' : one_wallet_each (take_oid (core b)))
    by (eapply one_wallet_each_same; [|exact Ho]; reflexivity).
  split; [|split; [|split]].
  - intros u. unfold create_user.
    destruct (find_one (user b) (with_email (User.email u))); [now split|].
    cbn [fst create_document_in on_core core outer_set outer_get user_].
    split; [now apply ledger_consistent_ensure|].
    intros u'. apply ensure_wallet_count, Ho'.
  - intros k. unfold submit_kyc.
    cbn [fst create_document_in on_core core outer_set outer_get kyc_].
    split.
    + eapply ledger_consistent_same; [| |exact Hc']; reflexivity.
    + eapply one_wallet_each_same; [|exact Ho']; reflexivity.
  - intros i v. rewrite set_kyc_status_updates_nothing. now split.
  - intros m p. unfold pay_instalment.
    cbn [fst create_document_in on_core core outer_set outer_get instalment_].
    split.
    + eapply ledger_consistent_same;
        [| |apply (ledger_consistent_credit (take_oid (core b))
                  (Build_credit (InstalmentPayment.user_id p)
                     (- abs (InstalmentPayment.amount p))%float
                     Transaction.instalment_payment
                     (Some (InstalmentPayment.investment_id p)) None) Hc')];
        reflexivity.
    + eapply one_wallet_each_same; [|apply one_wallet_each_credit, Ho'].
      reflexivity.
Qed.

Lemma backend_keeps_ledger_witness :
  ledger_consistent (core (fst (pay_instalment 11 empty_backend payment_12)))
  /\ one_wallet_each (core (fst (create_user empty_backend user_erin))).
Proof.
  assert (Hc : ledger_consistent (core empty_backend)) by (intros u; reflexivity).
  assert (Ho : one_wallet_each (core empty_backend)) by (intros u; simpl; lia).
  split.
  - exact (proj1 (proj2 (proj2 (proj2 (backend_keeps_ledger empty_backend Hc Ho)))
                    11 payment_12)).
  - exact (proj2 (proj1 (backend_keeps_ledger empty_backend Hc Ho) user_erin)).
Defined.
